(** * The data-access layer of the recruitment server (integration/DAO)

    A shallow embedding of the [DAO] class: the person repository
    ([findPersonByParameter], [findPersonByUsername], [findPersonIdByAuth],
    [savePerson], [login]) and the application workflow ([submitApplication],
    [updateApplication]).

    The database behind Sequelize is a record of tables; every DAO method is a
    computation in a small state-and-exception monad over it, so that
    [try { ... } catch (error) { throw new Error(prefix + error.message) }]
    reads the same way here as in the JavaScript. *)

From stdpp Require Import gmap strings list pretty.

Open Scope Z_scope.
Open Scope string_scope.

(** ** JavaScript values and plain objects *)

Inductive value :=
  | VUndefined
  | VNull
  | VBool (b : bool)
  | VNum (n : Z)
  | VStr (s : string).

#[global] Instance value_eq_dec : EqDecision value.
Proof. solve_decision. Defined.

Definition value_encode (v : value) : unit + unit + bool + Z + string :=
  match v with
  | VUndefined => inl (inl (inl (inl tt)))
  | VNull => inl (inl (inl (inr tt)))
  | VBool b => inl (inl (inr b))
  | VNum n => inl (inr n)
  | VStr s => inr s
  end.

Definition value_decode (x : unit + unit + bool + Z + string) : value :=
  match x with
  | inl (inl (inl (inl _))) => VUndefined
  | inl (inl (inl (inr _))) => VNull
  | inl (inl (inr b)) => VBool b
  | inl (inr n) => VNum n
  | inr s => VStr s
  end.

#[global] Instance value_countable : Countable value.
Proof.
  apply (inj_countable' value_encode value_decode).
  by intros [].
Defined.

(** A plain record such as a request body: property names to values. *)
Abbreviation object := (gmap string value).

(** [o.k]: a missing property reads as [undefined]. *)
Definition prop (o : object) (k : string) : value :=
  default VUndefined (o !! k).

(** Truthiness, as the conditional operator and [if] test it. *)
Definition truthy (v : value) : bool :=
  match v with
  | VUndefined | VNull => false
  | VBool b => b
  | VNum n => negb (Z.eqb n 0)
  | VStr s => negb (String.eqb s EmptyString)
  end.

(** ** Errors *)

Inductive ErrorName :=
  | Error
  | TypeError
  | ReferenceError
  | AssertionError
  | DriverError.

#[global] Instance ErrorName_eq_dec : EqDecision ErrorName.
Proof. solve_decision. Defined.

Record JsError := mkError { ename : ErrorName; message : string }.

#[global] Instance JsError_eq_dec : EqDecision JsError.
Proof. solve_decision. Defined.

(** The double-quote character, for messages that quote a name. *)
Definition dq : string := String (Ascii.ascii_of_nat 34) EmptyString.

(** Messages of the errors the JavaScript engine raises by itself. *)
Definition destructure_null (k : string) : JsError :=
  mkError TypeError
    ("Cannot destructure property '" +:+ k +:+ "' of '(intermediate value)' as it is null.").

Definition read_of_null (k : string) : JsError :=
  mkError TypeError ("Cannot read properties of null (reading '" +:+ k +:+ "')").

Definition not_defined (x : string) : JsError :=
  mkError ReferenceError (x +:+ " is not defined").

(** ** The database *)

Module Availability.
Record row := mk {
  availability_id : Z;
  person_id : value;
  from_date : value;
  to_date : value;
  application_status : value;
  version_number : Z
}.
End Availability.

#[global] Instance Availability_row_eq_dec : EqDecision Availability.row.
Proof. solve_decision. Defined.

(** [competence_profile] is keyed on (person_id, competence_id), which is what
    [ignoreDuplicates] of the bulk insert relies on; [availability] is keyed on
    its primary key. [person_seq] and [availability_seq] are the next values of
    the two auto-increment columns, as the inserts that were executed have
    moved them. Creation timestamps are left out. *)
Record Database := mkDatabase {
  person : list object;
  person_seq : Z;
  competence_profile : gmap (value * value) value;
  availability : gmap Z Availability.row;
  availability_seq : Z
}.

(** What a method runs against: the committed tables and, while a transaction
    is open, the working copy its statements write to. *)
Record Store := mkStore { db : Database; txn : option Database }.

Definition idle (d : Database) : Store := mkStore d None.

(** ** Asynchronous methods as a state-and-exception monad *)

Inductive outcome (A : Type) :=
  | Return (a : A)
  | Throw (e : JsError).
Arguments Return {A} a.
Arguments Throw {A} e.

Definition dao (A : Type) : Type := Store -> outcome A * Store.

Definition ret {A} (a : A) : dao A := fun s => (Return a, s).

Definition throw {A} (e : JsError) : dao A := fun s => (Throw e, s).

Definition bind {A B} (m : dao A) (k : A -> dao B) : dao B :=
  fun s =>
    match m s with
    | (Return a, s') => k a s'
    | (Throw e, s') => (Throw e, s')
    end.

Declare Scope dao_scope.
Delimit Scope dao_scope with dao.
Notation "x <- m ;; k" := (bind m (fun x => k))
  (at level 100, m at next level, right associativity) : dao_scope.
Notation "m ;;; k" := (bind m (fun _ => k))
  (at level 100, right associativity) : dao_scope.
Open Scope dao_scope.

(** [try { m } catch (error) { h error }] *)
Definition try_catch {A} (m : dao A) (h : JsError -> dao A) : dao A :=
  fun s =>
    match m s with
    | (Return a, s') => (Return a, s')
    | (Throw e, s') => h e s'
    end.

(** A promise that is started and never awaited: its effect on the store
    stays, its result and its rejection reach nobody. *)
Definition detach {A} (m : dao A) : dao unit :=
  fun s => (Return tt, (m s).2).

Fixpoint detach_all {A} (ms : list (dao A)) : dao unit :=
  match ms with
  | [] => ret tt
  | m :: ms' => detach m ;;; detach_all ms'
  end.

(** [new Error(prefix + error.message)] *)
Definition wrap (prefix : string) (error : JsError) : JsError :=
  mkError Error (prefix +:+ message error).

(** ** util/validators.js *)

Module Validators.

Definition assertion (ok : bool) (msg : string) : dao unit :=
  if ok then ret tt else throw (mkError AssertionError msg).

(** [typeof v] *)
Definition typeof (v : value) : string :=
  match v with
  | VUndefined => "undefined"
  | VNull => "object"
  | VBool _ => "boolean"
  | VNum _ => "number"
  | VStr _ => "string"
  end.

(** What the strict [assert.equal] writes behind a message it was given,
    when the two strings differ: the comparison of the two, each in single
    quotes. How Node lays it out depends on its version (older ones write
    nothing there), on the length of the two strings and on the terminal; it
    is taken here on one line, and the properties use only that it comes
    behind the message. *)
Definition compared (actual expected : string) : string :=
  let nl := String (Ascii.ascii_of_nat 10) EmptyString in
  nl +:+ nl +:+ "'" +:+ actual +:+ "' !== '" +:+ expected +:+ "'" +:+ nl.

(** [assert.equal(typeof value, 'string', message)] *)
Definition isString (v : value) (varName : string) : dao unit :=
  if String.eqb (typeof v) "string" then ret tt
  else throw (mkError AssertionError
                (varName +:+ " needs to be a string."
                 +:+ compared (typeof v) "string")).

(** [validator.isEmpty]: the string has length zero. *)
Definition isEmpty (v : value) : bool :=
  match v with
  | VStr s => String.eqb s EmptyString
  | _ => false
  end.

Definition alphanumeric (c : Ascii.ascii) : bool :=
  let n := Ascii.nat_of_ascii c in
  ((48 <=? n) && (n <=? 57) || (65 <=? n) && (n <=? 90)
   || (97 <=? n) && (n <=? 122))%nat.

(** [validator.isAlphanumeric] in its default locale: [/^[0-9A-Z]+$/i]. *)
Definition isAlphanumeric (v : value) : bool :=
  match v with
  | VStr s =>
      negb (String.eqb s EmptyString)
      && forallb alphanumeric (String.list_ascii_of_string s)
  | _ => false
  end.

Definition isStringNonZeroLength (v : value) (varName : string) : dao unit :=
  isString v varName ;;;
  assertion (negb (isEmpty v)) (varName +:+ " needs to have non-zero length.").

Definition isAlphanumericString (v : value) (varName : string) : dao unit :=
  isString v varName ;;;
  assertion (isAlphanumeric v)
            (varName +:+ " needs to only contain letters and numbers.").

End Validators.

(** ** model/dtoFactory.js *)

Module PersonDTO.
Record t := mk {
  person_id : value;
  name : value;
  surname : value;
  ssn : value;
  email : value;
  password : value;
  role_id : value;
  username : value
}.
End PersonDTO.

(** Modelled from the spec: model/dtoFactory.js is not among the sources.
    The spec calls DTO assembly a reshaping of rows that holds no business
    rule; the body is that of the [createPersonDto] method of
    integration/dao.js, which copies the eight person columns off the model
    instance, a column the instance does not carry reading as [undefined]. *)
Definition createPersonDto (personModel : object) : PersonDTO.t :=
  PersonDTO.mk
    (prop personModel "person_id")
    (prop personModel "name")
    (prop personModel "surname")
    (prop personModel "ssn")
    (prop personModel "email")
    (prop personModel "password")
    (prop personModel "role_id")
    (prop personModel "username").

(** [const {person_id} = dto]: destructuring [null] is a TypeError. *)
Definition destructure_person_id (dto : option PersonDTO.t) : dao value :=
  match dto with
  | Some d => ret (PersonDTO.person_id d)
  | None => throw (destructure_null "person_id")
  end.

(** ** Sequelize: the statements the DAO issues and what they do to the tables *)

Inductive Statement :=
  | Transaction
  | Commit
  | Rollback
  | PersonFindOne
  | PersonCreate
  | CompetenceProfileBulkCreate
  | CompetenceProfileUpdate (person_id competence_id : value)
  | AvailabilityBulkCreate
  | AvailabilityFindByPk
  | AvailabilityUpdate.

(** The part of a call the DAO does not decide: for each statement the call
    issues, whether the database executes it ([None]) or the returned promise
    rejects with a message (a lost connection, a violated constraint, a lock
    timeout, a query that reaches a transaction already finished). The
    constraints of the schema are on this side: a statement that would break
    one, such as an insert under an id or a username that is taken, is a
    statement the driver rejects. Each call has a driver of its own: what the
    database does with the statements of one call says nothing about the
    next. *)
Definition Driver : Type := Statement -> option string.

Definition healthy : Driver := fun _ => None.

(** The columns of the person table, as [createPersonDto] and [updatePerson]
    name them. *)
Definition Person_attributes : list string :=
  ["person_id"; "name"; "surname"; "ssn"; "email"; "password"; "role_id";
   "username"].

(** Modelled from the spec: model/availability.js is not among the sources;
    the spec gives a new availability the initial status "unhandled", which is
    the default of the column here. *)
Definition default_application_status : value := VStr "unhandled".

Definition set_person (f : list object -> list object) (seq : Z -> Z)
    (d : Database) : Database :=
  mkDatabase (f (person d)) (seq (person_seq d)) (competence_profile d)
             (availability d) (availability_seq d).

Definition set_competence_profile
    (f : gmap (value * value) value -> gmap (value * value) value)
    (d : Database) : Database :=
  mkDatabase (person d) (person_seq d) (f (competence_profile d))
             (availability d) (availability_seq d).

Definition set_availability
    (f : gmap Z Availability.row -> gmap Z Availability.row) (seq : Z -> Z)
    (d : Database) : Database :=
  mkDatabase (person d) (person_seq d) (competence_profile d)
             (f (availability d)) (seq (availability_seq d)).

(** A value on its way into a column: [undefined] and a missing property are
    stored as NULL. *)
Definition column (o : object) (k : string) : value :=
  match o !! k with
  | Some VUndefined | None => VNull
  | Some v => v
  end.

(** The row of a new person. The id is the one the record brings, or the
    next value of the sequence when it brings none. *)
Definition Person_build (seq : Z) (o : object) : object :=
  let r : object := list_to_map (map (fun k => (k, column o k)) Person_attributes) in
  if decide (column o "person_id" = VNull) then <["person_id" := VNum seq]> r
  else r.

(** The id a record brings for its row, if it brings one: a number. No
    property, [undefined] and [null] leave the id to the sequence. An id of
    another type is for the database to convert or to turn down and is not
    modelled; the properties that speak of ids exclude it. *)
Definition own_id (o : object) : option Z :=
  match o !! "availability_id" with
  | Some (VNum n) => Some n
  | _ => None
  end.

(** What [own_id] makes of a value: nothing, or the number it is. *)
Definition id_or_none (v : value) : bool :=
  match v with
  | VUndefined | VNull | VNum _ => true
  | _ => false
  end.

(** The row of a new availability. The id is the one the record brings, or
    the next value of the sequence when it brings none. *)
Definition Availability_build (seq : Z) (o : object) : Availability.row :=
  Availability.mk (default seq (own_id o))
    (column o "person_id") (column o "from_date") (column o "to_date")
    (match o !! "application_status" with
     | Some VUndefined | None => default_application_status
     | Some v => v
     end)
    (match o !! "version_number" with
     | Some (VNum n) => n
     | _ => 0
     end).

(** The insert of one row; the sequence moves when the id was drawn from
    it. *)
Definition Availability_insert (t : Database) (o : object) : Database :=
  let r := Availability_build (availability_seq t) o in
  set_availability
    (insert (Availability.availability_id r) r)
    (match own_id o with Some _ => id | None => Z.succ end)
    t.

(** The ids under which a bulk insert files its records, in their order,
    when the sequence stands at [seq]. *)
Fixpoint Availability_ids (seq : Z) (records : list object) : list Z :=
  match records with
  | [] => []
  | o :: rest =>
      match own_id o with
      | Some n => n :: Availability_ids seq rest
      | None => seq :: Availability_ids (Z.succ seq) rest
      end
  end.

(** The records that leave their id to the sequence. *)
Definition unnumbered (records : list object) : list object :=
  filter (fun o => own_id o = None) records.

(** The row an [UPDATE] of the status and the version leaves behind: the
    other columns stay as they were, and so does the status when the value
    given for it is [undefined], which Sequelize leaves out of the assignment
    list. *)
Definition updated (r : Availability.row) (application_status : value)
    (version_number : Z) : Availability.row :=
  Availability.mk (Availability.availability_id r) (Availability.person_id r)
    (Availability.from_date r) (Availability.to_date r)
    (if decide (application_status = VUndefined)
     then Availability.application_status r
     else application_status)
    version_number.

(** [INSERT ... ON CONFLICT DO NOTHING] of one competence profile. *)
Definition CompetenceProfile_insert_ignore
    (tbl : gmap (value * value) value) (o : object) : gmap (value * value) value :=
  let k := (prop o "person_id", prop o "competence_id") in
  match tbl !! k with
  | Some _ => tbl
  | None => <[k := column o "years_of_experience"]> tbl
  end.

(** A row satisfies a [where] object when each named column equals the value
    asked for. *)
Definition matches (where_ : list (string * value)) (row : object) : bool :=
  forallb (fun kv => bool_decide (row !! kv.1 = Some kv.2)) where_.

(** The [attributes] option: only the listed columns are fetched. *)
Definition select (attributes : list string) (row : object) : object :=
  filter (fun kv => kv.1 ∈ attributes) row.

(** Sequelize refuses a [where] object that holds [undefined]. *)
Definition invalid_where (k : string) : JsError :=
  mkError Error
    ("WHERE parameter " +:+ dq +:+ k +:+ dq +:+ " has invalid " +:+ dq
     +:+ "undefined" +:+ dq +:+ " value").

Definition check_where (where_ : list (string * value)) : dao unit :=
  match List.find (fun kv => bool_decide (kv.2 = VUndefined)) where_ with
  | Some kv => throw (invalid_where kv.1)
  | None => ret tt
  end.

(** A query on a transaction that was committed or rolled back is rejected. *)
Definition transaction_finished : JsError :=
  mkError Error "the transaction has been finished, it can no longer be used".

(** A statement outside any transaction acts on the committed tables. *)
Definition autocommit {A} (f : Database -> A * Database) : dao A :=
  fun s => let '(a, d) := f (db s) in (Return a, mkStore d (txn s)).

(** A statement given [{transaction: t}] acts on the working copy of [t]. *)
Definition in_transaction {A} (f : Database -> A * Database) : dao A :=
  fun s =>
    match txn s with
    | Some t => let '(a, t') := f t in (Return a, mkStore (db s) (Some t'))
    | None => (Throw transaction_finished, s)
    end.

Section Sequelize.

Variable drv : Driver.

(** A statement the driver rejects changes no row. The sequences count the
    ids handed to the inserts that were executed; an id that a rejected
    insert had drawn already is not tracked. *)
Definition query {A} (st : Statement) (run : dao A) : dao A :=
  fun s =>
    match drv st with
    | Some m => (Throw (mkError DriverError m), s)
    | None => run s
    end.

(** [this.database.transaction({autocommit:false})] *)
Definition transaction : dao unit :=
  query Transaction (fun s => (Return tt, mkStore (db s) (Some (db s)))).

(** [t.commit()] *)
Definition commit : dao unit :=
  query Commit
    (fun s =>
       match txn s with
       | Some t => (Return tt, mkStore t None)
       | None => (Throw transaction_finished, s)
       end).

(** [t.rollback()] *)
Definition rollback : dao unit :=
  query Rollback (fun s => (Return tt, mkStore (db s) None)).

(** [Person.findOne({where, attributes})] *)
Definition Person_findOne (where_ : list (string * value))
    (attributes : option (list string)) : dao (option object) :=
  check_where where_ ;;;
  query PersonFindOne
    (autocommit (fun d =>
       (from_option select id attributes
          <$> List.find (matches where_) (person d), d))).

(** [Person.create(person)]; the sequence moves when the id was drawn from
    it. *)
Definition Person_create (o : object) : dao object :=
  query PersonCreate
    (autocommit (fun d =>
       let r := Person_build (person_seq d) o in
       (r, set_person (fun rows => (rows ++ [r])%list)
             (if decide (column o "person_id" = VNull) then Z.succ else id)
             d))).

(** [CompetenceProfile.bulkCreate(records, {ignoreDuplicates:true, transaction:t})];
    a bulk insert of no records returns without a statement. *)
Definition CompetenceProfile_bulkCreate (records : list object) : dao unit :=
  match records with
  | [] => ret tt
  | _ =>
      query CompetenceProfileBulkCreate
        (in_transaction (fun t =>
           (tt, set_competence_profile
                  (fun tbl => foldl CompetenceProfile_insert_ignore tbl records)
                  t)))
  end.

(** [CompetenceProfile.update({years_of_experience},
      {where:{person_id, competence_id}, transaction:t})]; the result is the
    number of rows changed. A value that is [undefined] is left out of the
    assignment list. *)
Definition CompetenceProfile_update
    (years_of_experience person_id competence_id : value) : dao Z :=
  check_where [("person_id", person_id); ("competence_id", competence_id)] ;;;
  query (CompetenceProfileUpdate person_id competence_id)
    (in_transaction (fun t =>
       match competence_profile t !! (person_id, competence_id) with
       | Some _ =>
           if decide (years_of_experience = VUndefined) then (0, t)
           else (1, set_competence_profile
                      (insert (person_id, competence_id) years_of_experience) t)
       | None => (0, t)
       end)).

(** [Availability.bulkCreate(records, {transaction:t})] *)
Definition Availability_bulkCreate (records : list object) : dao unit :=
  match records with
  | [] => ret tt
  | _ =>
      query AvailabilityBulkCreate
        (in_transaction (fun t => (tt, foldl Availability_insert t records)))
  end.

(** [Availability.findByPk(availability_id, {attributes:["version_number"]})];
    of the row it finds, the caller reads the one column it asked for. *)
Definition Availability_findByPk (availability_id : Z)
    : dao (option Availability.row) :=
  query AvailabilityFindByPk
    (autocommit (fun d => (availability d !! availability_id, d))).

(** [Availability.update({application_status, version_number},
      {where:{availability_id}})]; an [application_status] that is
    [undefined] is not assigned, the version is. *)
Definition Availability_update (application_status : value)
    (version_number availability_id : Z) : dao Z :=
  query AvailabilityUpdate
    (autocommit (fun d =>
       match availability d !! availability_id with
       | Some r =>
           (1, set_availability
                 (insert availability_id
                    (updated r application_status version_number))
                 id d)
       | None => (0, d)
       end)).

End Sequelize.

(** ** integration/DAO *)

Definition version_expired (current : Z) : JsError :=
  mkError Error ("Version number expired. Current version: " +:+ pretty current).

Section DAO.

Variable drv : Driver.

Definition findPersonByParameter (key : string) (param : value)
    : dao (option PersonDTO.t) :=
  try_catch
    (personModel <- Person_findOne drv [(key, param)] None ;;
     match personModel with
     | None => ret None
     | Some m => ret (Some (createPersonDto m))
     end)
    (fun error => throw (wrap "could not find person." error)).

Definition findPersonByUsername (username : value) : dao (option PersonDTO.t) :=
  Validators.isStringNonZeroLength username "username" ;;;
  Validators.isAlphanumericString username "username" ;;;
  findPersonByParameter "username" username.

(** The last line of the method builds its message from [error.message], and
    no [error] is in scope there: evaluating the argument of [new Error] is a
    ReferenceError. *)
Definition findPersonIdByAuth (auth : object) : dao value :=
  let '(key, value) :=
    if truthy (prop auth "username") then (Some "username", prop auth "username")
    else if truthy (prop auth "email") then (Some "email", prop auth "email")
    else (None, VNull) in
  match key with
  | Some key =>
      dto <- findPersonByParameter key value ;;
      destructure_person_id dto
  | None => throw (not_defined "error")
  end.

Definition savePerson (person : object) : dao string :=
  try_catch
    (let person := <["role_id" := VNum 2]> person in
     Person_create drv person ;;;
     ret "success")
    (fun error => throw (wrap "Could not create person." error)).

Definition login (person : object) : dao (option PersonDTO.t) :=
  try_catch
    (personModel <-
       Person_findOne drv
         [("username", prop person "username");
          ("password", prop person "password")]
         (Some ["username"; "email"; "role_id"]) ;;
     match personModel with
     | None => ret None
     | Some m => ret (Some (createPersonDto m))
     end)
    (fun error => throw (wrap "could not login." error)).

(** [{person_id, ...c}] *)
Definition competenceProfile (person_id : value) (c : object) : object :=
  c ∪ {["person_id" := person_id]}.

(** [{person_id, ...p, version_number:0}] *)
Definition availabilityOf (person_id : value) (p : object) : object :=
  <["version_number" := VNum 0]> (p ∪ {["person_id" := person_id]}).

(** The body of the arrow function mapped over [competenceProfiles]. *)
Definition updateExperience (profile : object) : dao Z :=
  let person_id := prop profile "person_id" in
  let competence_id := prop profile "competence_id" in
  let years_of_experience := prop profile "years_of_experience" in
  CompetenceProfile_update drv years_of_experience person_id competence_id.

(** The transaction is opened before the [try]. The per-profile updates are
    issued in order between the two bulk inserts, and the promises that
    [map] collects are dropped; [t.commit()] and [t.rollback()] are not
    awaited either. The line written to the log is left out. *)
Definition submitApplication (username : value)
    (competencies periods : list object) : dao string :=
  transaction drv ;;;
  try_catch
    (dto <- findPersonByUsername username ;;
     person_id <- destructure_person_id dto ;;
     let competenceProfiles := map (competenceProfile person_id) competencies in
     let availabilities := map (availabilityOf person_id) periods in
     CompetenceProfile_bulkCreate drv competenceProfiles ;;;
     detach_all (map updateExperience competenceProfiles) ;;;
     Availability_bulkCreate drv availabilities ;;;
     detach (commit drv) ;;;
     ret "success")
    (fun error =>
       detach (rollback drv) ;;;
       throw (wrap "Failed to submit application." error)).

(** [updateApplication] up to its second [await]: read the current version,
    compare, compute the next one. The JSDoc of the method types
    [version_number] as a number, and the column holds integers, which a
    JavaScript number carries exactly: [!=] is inequality, the unary [+] is
    the identity and [+ 1] is the successor. *)
Definition checkVersion (availability_id version_number : Z) : dao Z :=
  currentVersion <- Availability_findByPk drv availability_id ;;
  match currentVersion with
  | None => throw (read_of_null "version_number")
  | Some r =>
      if decide (Availability.version_number r ≠ version_number)
      then throw (version_expired (Availability.version_number r))
      else
        let nextVersionNumber := version_number + 1 in
        ret nextVersionNumber
  end.

(** [updateApplication] from its second [await] on. *)
Definition writeStatus (availability_id : Z) (application_status : value)
    (nextVersionNumber : Z) : dao string :=
  Availability_update drv application_status nextVersionNumber availability_id ;;;
  ret "success".

Definition updateFailed {A} (error : JsError) : dao A :=
  throw (wrap "Could not update application" error).

Definition updateApplication (availability_id : Z) (application_status : value)
    (version_number : Z) : dao string :=
  try_catch
    (nextVersionNumber <- checkVersion availability_id version_number ;;
     writeStatus availability_id application_status nextVersionNumber)
    updateFailed.

(** *** Two calls of [updateApplication] in flight

    A call gives up control at each [await]; between the two, another call
    may run. A task is where a call stands. *)
Inductive UpdateTask :=
  | Reading
  | Writing (nextVersionNumber : Z)
  | Settled (result : outcome string).

Record Call := mkCall {
  call_availability_id : Z;
  call_application_status : value;
  call_version_number : Z
}.

Definition resume (c : Call) (task : UpdateTask) (s : Store)
    : UpdateTask * Store :=
  match task with
  | Reading =>
      match try_catch (checkVersion (call_availability_id c)
                                    (call_version_number c))
                      updateFailed s with
      | (Return n, s') => (Writing n, s')
      | (Throw e, s') => (Settled (Throw e), s')
      end
  | Writing n =>
      let '(r, s') :=
        try_catch (writeStatus (call_availability_id c)
                               (call_application_status c) n)
                  updateFailed s in
      (Settled r, s')
  | Settled r => (Settled r, s)
  end.

Inductive Turn := First | Second.

(** The two tasks and the store after the event loop has resumed the calls
    in the order of [schedule]. *)
Fixpoint race (c1 c2 : Call) (schedule : list Turn)
    (t1 t2 : UpdateTask) (s : Store) : UpdateTask * UpdateTask * Store :=
  match schedule with
  | [] => (t1, t2, s)
  | First :: rest =>
      let '(t1', s') := resume c1 t1 s in race c1 c2 rest t1' t2 s'
  | Second :: rest =>
      let '(t2', s') := resume c2 t2 s in race c1 c2 rest t1 t2' s'
  end.

End DAO.

(** The prefixes under which the DAO rethrows what it catches. *)
Definition prefixes : list string :=
  ["Could not connect to database."; "could not find person.";
   "Could not create person."; "could not create person."; "could not login.";
   "Failed to submit application."; "could not find all applications.";
   "Could not set user password"; "Could not update application";
   "Could not get competences"].

(** An error as the DAO lets it out on purpose: an [Error] whose message
    starts with one of its prefixes. *)
Definition wrapped (e : JsError) : bool :=
  bool_decide (ename e = Error)
  && existsb (fun p => String.prefix p (message e)) prefixes.

(** ** util/validators.js: the form of an email address *)

(** Regular expressions without captures, enough for [emailForm]. *)
Inductive regex :=
  | Never
  | Empty
  | Class (p : Ascii.ascii -> bool)
  | Seq (r1 r2 : regex)
  | Alt (r1 r2 : regex)
  | Star (r : regex).

(** [r+] *)
Definition Plus (r : regex) : regex := Seq r (Star r).

Fixpoint nullable (r : regex) : bool :=
  match r with
  | Never => false
  | Empty => true
  | Class _ => false
  | Seq r1 r2 => nullable r1 && nullable r2
  | Alt r1 r2 => nullable r1 || nullable r2
  | Star _ => true
  end.

(** What is left of [r] once the character [c] has been read. *)
Fixpoint derivative (c : Ascii.ascii) (r : regex) : regex :=
  match r with
  | Never => Never
  | Empty => Never
  | Class p => if p c then Empty else Never
  | Seq r1 r2 =>
      if nullable r1
      then Alt (Seq (derivative c r1) r2) (derivative c r2)
      else Seq (derivative c r1) r2
  | Alt r1 r2 => Alt (derivative c r1) (derivative c r2)
  | Star r1 => Seq (derivative c r1) (Star r1)
  end.

(** Whether the whole of [s] matches [r], as [/^r$/.test(s)] tells. *)
Fixpoint accepts (r : regex) (s : list Ascii.ascii) : bool :=
  match s with
  | [] => nullable r
  | c :: s' => accepts (derivative c r) s'
  end.

(** The strings of a regular expression. *)
Inductive lang : regex -> list Ascii.ascii -> Prop :=
  | lang_empty : lang Empty []
  | lang_class p c : p c = true -> lang (Class p) [c]
  | lang_seq r1 r2 s1 s2 :
      lang r1 s1 -> lang r2 s2 -> lang (Seq r1 r2) (s1 ++ s2)
  | lang_alt_l r1 r2 s : lang r1 s -> lang (Alt r1 r2) s
  | lang_alt_r r1 r2 s : lang r2 s -> lang (Alt r1 r2) s
  | lang_star_nil r : lang (Star r) []
  | lang_star_more r s1 s2 :
      lang r s1 -> lang (Star r) s2 -> lang (Star r) (s1 ++ s2).

Module EmailValidator.

Definition between (lo hi : nat) (c : Ascii.ascii) : bool :=
  ((lo <=? Ascii.nat_of_ascii c) && (Ascii.nat_of_ascii c <=? hi))%nat.

Definition one_of (chars : string) (c : Ascii.ascii) : bool :=
  existsb (Ascii.eqb c) (String.list_ascii_of_string chars).

(** [[a-zA-Z0-9.!#$%&'*+/=?^_`{|}~-]] *)
Definition local_char (c : Ascii.ascii) : bool :=
  between 97 122 c || between 65 90 c || between 48 57 c
  || one_of ".!#$%&'*+/=?^_`{|}~-" c.

(** [[a-zA-Z0-9-]] *)
Definition label_char (c : Ascii.ascii) : bool :=
  between 97 122 c || between 65 90 c || between 48 57 c || one_of "-" c.

(** [/^[a-zA-Z0-9.!#$%&'*+/=?^_`{|}~-]+@[a-zA-Z0-9-]+(?:\.[a-zA-Z0-9-]+)*$/] *)
Definition emailForm : regex :=
  Seq (Plus (Class local_char))
      (Seq (Class (one_of "@"))
           (Seq (Plus (Class label_char))
                (Star (Seq (Class (one_of ".")) (Plus (Class label_char)))))).

(** [emailForm.test(emailInput)]. The argument is turned into a string first;
    the strings of [undefined], [null], a boolean or a number hold no [@], so
    only a string can pass. *)
Definition test (emailInput : value) : bool :=
  match emailInput with
  | VStr s => accepts emailForm (String.list_ascii_of_string s)
  | _ => false
  end.

(** The message Node writes for an [assert] that was given none. *)
Definition falsy (expression : string) : JsError :=
  let nl := String (Ascii.ascii_of_nat 10) EmptyString in
  mkError AssertionError
    ("The expression evaluated to a falsy value:" +:+ nl +:+ nl +:+ "  "
     +:+ expression +:+ nl).

Definition isEmailValid (emailInput : value) : dao unit :=
  if test emailInput then ret tt
  else throw (falsy "assert(emailForm.test(emailInput))").

End EmailValidator.

(** The characters [@] and [.]. *)
Definition at_sign : Ascii.ascii := Ascii.ascii_of_nat 64.

Definition full_stop : Ascii.ascii := Ascii.ascii_of_nat 46.

(** ** integration/DAO: the methods on persons that the email validator guards *)

(** [SET] of the listed columns on one row; a value that is [undefined] is
    left out of the assignment list. *)
Definition assign (values : list (string * value)) (row : object) : object :=
  foldl (fun r kv => if decide (kv.2 = VUndefined) then r else <[kv.1 := kv.2]> r)
        row values.

(** [Person.update(values, {where})]: every row that satisfies [where] is
    assigned the values; the result is the number of such rows. [reject] is
    what the driver does with the statement. *)
Definition Person_update (reject : option string)
    (values where_ : list (string * value)) : dao Z :=
  check_where where_ ;;;
  match reject with
  | Some m => throw (mkError DriverError m)
  | None =>
      autocommit (fun d =>
        (Z.of_nat (length (filter (fun row => matches where_ row = true) (person d))),
         set_person
           (map (fun row => if matches where_ row then assign values row else row))
           id d))
  end.

Definition findPersonByEmail (drv : Driver) (email : value)
    : dao (option PersonDTO.t) :=
  EmailValidator.isEmailValid email ;;;
  findPersonByParameter drv "email" email.

Definition setPersonPassword (reject : option string) (email password : value)
    : dao unit :=
  try_catch
    (EmailValidator.isEmailValid email ;;;
     Validators.isStringNonZeroLength password "password" ;;;
     Person_update reject [("password", password)] [("email", email)] ;;;
     ret tt)
    (fun error => throw (wrap "Could not set user password" error)).

(** ** A submission on a database that executes every statement *)

(** What an executed [updateExperience] does to the competence profiles: the
    row under the key of the profile, if there is one, gets the years of the
    profile; a key or years that are [undefined] leave the table alone. *)
Definition experience_updated (tbl : gmap (value * value) value)
    (profile : object) : gmap (value * value) value :=
  let person_id := prop profile "person_id" in
  let competence_id := prop profile "competence_id" in
  let years_of_experience := prop profile "years_of_experience" in
  if decide (person_id = VUndefined \/ competence_id = VUndefined) then tbl
  else
    match tbl !! (person_id, competence_id) with
    | Some _ =>
        if decide (years_of_experience = VUndefined) then tbl
        else <[(person_id, competence_id) := years_of_experience]> tbl
    | None => tbl
    end.

(** The tables after the submission of [competencies] and [periods] by the
    person with id [person_id]: the bulk insert of the profiles, the updates
    of the years in the order of the list, the bulk insert of the periods. *)
Definition submitted (person_id : value) (competencies periods : list object)
    (d : Database) : Database :=
  let competenceProfiles := map (competenceProfile person_id) competencies in
  foldl Availability_insert
    (set_competence_profile
       (fun tbl =>
          foldl experience_updated
            (foldl CompetenceProfile_insert_ignore tbl competenceProfiles)
            competenceProfiles)
       d)
    (map (availabilityOf person_id) periods).

(** The persons and their sequence, in the committed tables and in the
    working copy of an open transaction, are those of [d]. *)
Definition persons_of (d : Database) (s : Store) : Prop :=
  (person (db s) = person d /\ person_seq (db s) = person_seq d)
  /\ forall t, txn s = Some t ->
               person t = person d /\ person_seq t = person_seq d.

(** ** Requests handled one after another *)

(** The status updates of [calls], each run to its end before the next one
    starts; a call that throws does not stop the ones behind it. Each call
    comes with what the database does to its statements. *)
Fixpoint serve (calls : list (Driver * Call)) (s : Store)
    : list (outcome string) * Store :=
  match calls with
  | [] => ([], s)
  | (drv, c) :: rest =>
      let '(r, s1) := updateApplication drv (call_availability_id c)
                        (call_application_status c) (call_version_number c) s in
      let '(rs, s2) := serve rest s1 in
      (r :: rs, s2)
  end.

(** Whether call [c], with outcome [r], was a status update of row [id] that
    returned. *)
Definition succeeded (id : Z) (c : Call) (r : outcome string) : bool :=
  bool_decide (call_availability_id c = id)
  && match r with Return _ => true | Throw _ => false end.

(** How many of [calls], with outcomes [results], were status updates of row
    [id] that returned. *)
Fixpoint successes (id : Z) (calls : list (Driver * Call))
    (results : list (outcome string)) : Z :=
  match calls, results with
  | (_, c) :: calls', r :: results' =>
      (if succeeded id c r then 1 else 0) + successes id calls' results'
  | _, _ => 0
  end.

(** Where a call that presented version [v] can stand while the row is at
    version [w]: it is turned away only once the row has moved on. *)
Definition task_ok (v w : Z) (t : UpdateTask) : Prop :=
  t = Reading \/ t = Writing (v + 1) \/ t = Settled (Return "success")
  \/ ((exists e, t = Settled (Throw e)) /\ w = v + 1).

(** Two calls in flight on row [id], both having presented version [v]: the
    row is at [v] until one of them has written, and at [v + 1] from then
    on. *)
Definition racing (id v : Z) (t1 t2 : UpdateTask) (s : Store) : Prop :=
  exists r,
    availability (db s) !! id = Some r
    /\ (Availability.version_number r = v
        \/ Availability.version_number r = v + 1)
    /\ task_ok v (Availability.version_number r) t1
    /\ task_ok v (Availability.version_number r) t2
    /\ (Availability.version_number r = v + 1
        <-> t1 = Settled (Return "success") \/ t2 = Settled (Return "success")).

(** ** api/authorization.js *)

(** [s.split(sep)] for a separator of one character. *)
Fixpoint split (sep : Ascii.ascii) (s : string) : list string :=
  match s with
  | EmptyString => [EmptyString]
  | String c rest =>
      if Ascii.eqb c sep then EmptyString :: split sep rest
      else match split sep rest with
           | piece :: pieces => String c piece :: pieces
           | [] => [String c EmptyString]
           end
  end.

(** The space, and whether a string is free of it. *)
Definition space : Ascii.ascii := Ascii.ascii_of_nat 32.

Definition spaceless (s : string) : bool :=
  forallb (fun c => negb (Ascii.eqb c space)) (String.list_ascii_of_string s).

Module Authorizer.

Section Middleware.

(** What the token library decodes a token into, the reading of the [person]
    property of such a value, [jwt.verify] as seen from its callback ([None]:
    the callback gets an error) and the two secrets of the environment. *)
Variable J : Type.
Variable person_of : J -> J.
Variable verify : option string -> option string -> option J.
Variables JWT_SECRET JWT_PUT_SECRET : option string.

(** The parts of a request the middleware reads and writes:
    [req.headers["authorization"]], [req.token] and [req.body.auth]. *)
Record Request := mkRequest {
  authorization : option string;
  token : option string;
  auth : option J
}.

(** A middleware either hands the request on with [next()] or answers it
    with [res.status(status).send(body)]. *)
Inductive Handled :=
  | Next (req : Request)
  | Send (status : Z) (body : string) (req : Request).

(** [bearerHeader.split(" ")[1]] *)
Definition bearerToken (bearerHeader : string) : option string :=
  split (Ascii.ascii_of_nat 32) bearerHeader !! 1%nat.

(** [req.token = token] *)
Definition set_token (t : option string) (req : Request) : Request :=
  mkRequest (authorization req) t (auth req).

(** [req.body.auth = a] *)
Definition set_auth (a : J) (req : Request) : Request :=
  mkRequest (authorization req) (token req) (Some a).

(** The line written to the console on an invalid token is left out. *)
Definition verifyToken (req : Request) : Handled :=
  match authorization req with
  | Some bearerHeader =>
      let token := bearerToken bearerHeader in
      let req := set_token token req in
      match verify token JWT_SECRET with
      | None => Send 403 "Invalid token!" req
      | Some authData => Next (set_auth (person_of authData) req)
      end
  | None =>
      Send 403 "Authorization header is missing or incorrectly formatted" req
  end.

Definition verifyUpdatePerson (req : Request) : Handled :=
  match authorization req with
  | Some bearerHeader =>
      let token := bearerToken bearerHeader in
      match verify token JWT_SECRET with
      | None =>
          match verify token JWT_PUT_SECRET with
          | None => Send 403 "Unauthorized" req
          | Some a2 => Next (set_auth a2 req)
          end
      | Some a1 =>
          let authData := a1 in
          Next (set_auth (person_of authData) req)
      end
  | None =>
      Send 403 "Authorization header is missing or incorrectly formatted" req
  end.

End Middleware.

End Authorizer.

(** ** api/competenceAPI.js *)

Module CompetenceAPI.

Section ListRoute.

Variable J : Type.
Variable person_of : J -> J.
Variable verify : option string -> option string -> option J.
Variable JWT_SECRET : option string.

(** The competence list as the controller hands it over. *)
Variable CompetenceList : Type.

Inductive Body :=
  | Text (s : string)
  | Competences (l : CompetenceList).

(** What the route does with a request: the status and the body it hands to
    [sendHttpResponse] or, in the middleware, to [res.status(..).send(..)],
    and the error it passes to [next], if any. *)
Record Response := mkResponse {
  status : Z;
  body : Body;
  forwarded : option JsError
}.

(** The handler of [GET /list]; [competenceList] is how
    [this.contr.getAllCompetences()] ends. The line written to the log when
    the list is [null] is left out. *)
Definition listHandler (competenceList : outcome (option CompetenceList))
    : Response :=
  match competenceList with
  | Return None => mkResponse 404 (Text "No competences found") None
  | Return (Some l) => mkResponse 200 (Competences l) None
  | Throw err => mkResponse 404 (Text "No competences found") (Some err)
  end.

(** [this.router.get('/list', Authorizer.verifyToken, handler)]: the handler
    runs when the middleware has called [next()]. *)
Definition listRoute (req : Authorizer.Request J)
    (competenceList : outcome (option CompetenceList)) : Response :=
  match Authorizer.verifyToken J person_of verify JWT_SECRET req with
  | Authorizer.Next _ _ => listHandler competenceList
  | Authorizer.Send _ status body _ => mkResponse status (Text body) None
  end.

End ListRoute.

End CompetenceAPI.

(** ** Stores the properties speak of *)

(** The store after the [UPDATE] of the row [r] under [availability_id] with
    a status and a version. *)
Definition written (s : Store) (availability_id : Z) (r : Availability.row)
    (application_status : value) (version_number : Z) : Store :=
  mkStore
    (set_availability
       (insert availability_id (updated r application_status version_number))
       id (db s))
    (txn s).

(** What a computation keeps true of the store, however it ends. *)
Definition preserves {A} (P : Store -> Prop) (m : dao A) : Prop :=
  forall s, P s -> P (m s).2.

(** The transaction of a submission is open, nothing is committed yet, and
    its working copy has the availability table of [d]. *)
Definition pending (d : Database) (s : Store) : Prop :=
  db s = d
  /\ exists t, txn s = Some t
               /\ availability t = availability d
               /\ availability_seq t = availability_seq d.

(** ** A small database to run the methods on *)

Definition alice : object :=
  list_to_map
    [("person_id", VNum 1); ("name", VStr "Alice"); ("surname", VStr "Berg");
     ("ssn", VStr "19900101-1234"); ("email", VStr "alice@example.com");
     ("password", VStr "s3cret"); ("role_id", VNum 2);
     ("username", VStr "alice")].

(** One registered applicant, no application yet. *)
Definition registered : Database := mkDatabase [alice] 2 ∅ ∅ 1.

Definition january : Availability.row :=
  Availability.mk 1 (VNum 1) (VStr "2024-01-01") (VStr "2024-01-10")
                  (VStr "unhandled") 0.

(** The applicant has applied: competence 3 with two years, one period. *)
Definition applied : Database :=
  mkDatabase [alice] 2 {[ (VNum 1, VNum 3) := VNum 2 ]} {[ 1 := january ]} 2.

Definition accept : Call := mkCall 1 (VStr "accepted") 0.

Definition reject : Call := mkCall 1 (VStr "rejected") 0.

Definition two_years : object :=
  list_to_map [("competence_id", VNum 3); ("years_of_experience", VNum 2)].

Definition five_years : object :=
  list_to_map [("competence_id", VNum 3); ("years_of_experience", VNum 5)].

Definition ten_days : object :=
  list_to_map [("from_date", VStr "2024-01-01"); ("to_date", VStr "2024-01-10")].

(** A period that brings a status and a version of its own. *)
Definition preapproved : object :=
  <["version_number" := VNum 7]>
    (<["application_status" := VStr "accepted"]> ten_days).

(** A period that brings an id of its own. *)
Definition ten_days_under_5 : object :=
  <["availability_id" := VNum 5]> ten_days.

(** A database on which every per-profile update is rejected, as it is when it
    reaches the connection after [t.commit()] has finished the transaction,
    or runs into a lock timeout. Every other statement is executed. *)
Definition update_rejected : Driver :=
  fun st =>
    match st with
    | CompetenceProfileUpdate _ _ => Some "the statement was rejected"
    | _ => None
    end.

(** A registration that asks for the recruiter role. *)
Definition eve : object :=
  {[ "username" := VStr "eve"; "password" := VStr "pa55"; "role_id" := VNum 1;
     "email" := VStr "eve@example.com" ]}.

(** A third status update of availability 1, presenting version 1. *)
Definition withdraw : Call := mkCall 1 (VStr "withdrawn") 1.

(** Databases that reject one statement and execute every other one. *)
Definition no_transaction : Driver :=
  fun st =>
    match st with
    | Transaction => Some "connection refused"
    | _ => None
    end.

Definition no_insert : Driver :=
  fun st =>
    match st with
    | PersonCreate => Some "duplicate key value"
    | _ => None
    end.

Definition no_update : Driver :=
  fun st =>
    match st with
    | AvailabilityUpdate => Some "lock timeout"
    | _ => None
    end.

Definition bad_dates : Driver :=
  fun st =>
    match st with
    | AvailabilityBulkCreate => Some "invalid input syntax for type date"
    | _ => None
    end.

(** A token library that knows one token under the first secret and one
    under the second; a payload is a number and is its own [person]. *)
Definition known_tokens (token secret : option string) : option nat :=
  if decide (token = Some "t0k3n" /\ secret = Some "secret") then Some 7%nat
  else if decide (token = Some "put" /\ secret = Some "put-secret")
       then Some 9%nat
       else None.

(** * Properties *)

(** ** Status update: the version check *)

Section UpdateApplication.

Variable drv : Driver.
Variables (availability_id : Z) (application_status : value).

Lemma checkVersion_found s r version_number :
  availability (db s) !! availability_id = Some r ->
  drv AvailabilityFindByPk = None ->
  checkVersion drv availability_id version_number s =
    if decide (Availability.version_number r ≠ version_number)
    then (Throw (version_expired (Availability.version_number r)), s)
    else (Return (version_number + 1), s).
Proof.
  intros Hrow Hfind.
  unfold checkVersion, Availability_findByPk, query, autocommit, bind.
  rewrite Hfind. simpl. rewrite Hrow.
  destruct s as [d t]. simpl.
  by destruct (decide (Availability.version_number r ≠ version_number)).
Qed.

Lemma checkVersion_store s version_number x s' :
  checkVersion drv availability_id version_number s = (x, s') -> s' = s.
Proof.
  unfold checkVersion, Availability_findByPk, query, autocommit, bind, throw, ret.
  destruct (drv AvailabilityFindByPk); simpl.
  - by intros [= _ <-].
  - destruct s as [d t]; simpl.
    destruct (availability d !! availability_id) as [r|]; simpl.
    + destruct (decide (Availability.version_number r ≠ version_number));
        by intros [= _ <-].
    + by intros [= _ <-].
Qed.

Lemma checkVersion_passed s version_number n s' r :
  availability (db s) !! availability_id = Some r ->
  checkVersion drv availability_id version_number s = (Return n, s') ->
  Availability.version_number r = version_number /\ n = version_number + 1.
Proof.
  intros Hrow.
  unfold checkVersion, Availability_findByPk, query, autocommit, bind, throw, ret.
  destruct (drv AvailabilityFindByPk); simpl; [done|].
  destruct s as [d t]; simpl in *. rewrite Hrow.
  destruct (decide (Availability.version_number r ≠ version_number)) as [|Heq];
    [done|].
  intros [= <- _]. split; [|done].
  by destruct (decide (Availability.version_number r = version_number)).
Qed.

Lemma writeStatus_found s r n :
  availability (db s) !! availability_id = Some r ->
  drv AvailabilityUpdate = None ->
  writeStatus drv availability_id application_status n s =
    (Return "success", written s availability_id r application_status n).
Proof.
  intros Hrow Hupd.
  unfold writeStatus, Availability_update, query, autocommit, bind, ret.
  rewrite Hupd. simpl. by rewrite Hrow.
Qed.

Lemma writeStatus_returned s r n x s' :
  availability (db s) !! availability_id = Some r ->
  writeStatus drv availability_id application_status n s = (Return x, s') ->
  s' = written s availability_id r application_status n.
Proof.
  intros Hrow.
  unfold writeStatus, Availability_update, query, autocommit, bind, ret.
  destruct (drv AvailabilityUpdate); simpl; [done|].
  rewrite Hrow. by intros [= _ <-].
Qed.

Lemma written_row s r n :
  availability (db (written s availability_id r application_status n))
    !! availability_id = Some (updated r application_status n).
Proof. unfold written. simpl. apply lookup_insert_eq. Qed.

Lemma written_elsewhere s r n other :
  other ≠ availability_id ->
  availability (db (written s availability_id r application_status n)) !! other
  = availability (db s) !! other.
Proof. intros Hne. unfold written. simpl. by apply lookup_insert_ne. Qed.

(** C1. When the caller presents the version the row holds and the database
    executes the two statements, [updateApplication] returns "success" and
    leaves the row with the new status and the old version plus one; and
    whenever a call on an existing row returns at all, the version it was
    given was the current one, the row's version went up by exactly one, and
    the row holds the status of the call. The status of the call is a
    string by the JSDoc of the method; a call that brings none (the value is
    [undefined]) leaves the status of the row as it was and still raises the
    version. *)
Theorem updateApplication_increments_version s r version_number :
  availability (db s) !! availability_id = Some r ->
  (Availability.version_number r = version_number ->
   drv AvailabilityFindByPk = None ->
   drv AvailabilityUpdate = None ->
   updateApplication drv availability_id application_status version_number s
   = (Return "success",
      written s availability_id r application_status
              (Availability.version_number r + 1)))
  /\ (forall x s',
        updateApplication drv availability_id application_status
                          version_number s = (Return x, s') ->
        Availability.version_number r = version_number
        /\ exists r',
             availability (db s') !! availability_id = Some r'
             /\ Availability.version_number r'
                = Availability.version_number r + 1
             /\ (application_status ≠ VUndefined ->
                 Availability.application_status r' = application_status)
             /\ (application_status = VUndefined ->
                 Availability.application_status r'
                 = Availability.application_status r)).
Proof.
  intros Hrow. split.
  - intros Hv Hfind Hupd.
    unfold updateApplication, try_catch, bind.
    rewrite (checkVersion_found _ _ _ Hrow Hfind).
    destruct (decide (Availability.version_number r ≠ version_number));
      [done|].
    rewrite (writeStatus_found _ _ _ Hrow Hupd). by rewrite Hv.
  - intros x s'.
    unfold updateApplication, try_catch, bind.
    destruct (checkVersion drv availability_id version_number s)
      as [[n|e] s1] eqn:Hcheck; [|done].
    pose proof (checkVersion_store _ _ _ _ Hcheck) as ->.
    destruct (checkVersion_passed _ _ _ _ _ Hrow Hcheck) as [Hv ->].
    destruct (writeStatus drv availability_id application_status
                          (version_number + 1) s)
      as [[y|e] s2] eqn:Hwrite; [|done].
    intros [= _ <-].
    rewrite (writeStatus_returned _ _ _ _ _ Hrow Hwrite).
    split; [done|].
    eexists. split; [apply written_row|]. simpl.
    split; [by rewrite Hv|].
    by destruct (decide (application_status = VUndefined)).
Qed.

(** C2. When the row exists and the caller presents another version than the
    one it holds, [updateApplication] throws and the store is what it was:
    neither the status nor the version of the row changed. If the database
    answered the read, the error is the version conflict, whose message
    names the version the row holds. *)
Theorem updateApplication_stale_version s r version_number :
  availability (db s) !! availability_id = Some r ->
  Availability.version_number r ≠ version_number ->
  exists e,
    updateApplication drv availability_id application_status version_number s
    = (Throw e, s)
    /\ (drv AvailabilityFindByPk = None ->
        e = mkError Error
              ("Could not update application"
               +:+ "Version number expired. Current version: "
               +:+ pretty (Availability.version_number r))).
Proof.
  intros Hrow Hne.
  unfold updateApplication, try_catch, bind.
  destruct (drv AvailabilityFindByPk) as [m|] eqn:Hfind.
  - unfold checkVersion, Availability_findByPk, query, bind.
    rewrite Hfind. eexists. split; [reflexivity|done].
  - rewrite (checkVersion_found _ _ _ Hrow Hfind).
    destruct (decide (Availability.version_number r ≠ version_number));
      [|done].
    eexists. split; [reflexivity|]. intros _. reflexivity.
Qed.

End UpdateApplication.

(** ** Status update: two calls in flight *)

Section Race.

Variable drv : Driver.
Hypothesis find_ok : drv AvailabilityFindByPk = None.
Hypothesis update_ok : drv AvailabilityUpdate = None.

Variables (c1 c2 : Call) (s : Store) (r : Availability.row).
Hypothesis same_row : call_availability_id c1 = call_availability_id c2.
Hypothesis row_there :
  availability (db s) !! call_availability_id c1 = Some r.
Hypothesis version1 : call_version_number c1 = Availability.version_number r.
Hypothesis version2 : call_version_number c2 = Availability.version_number r.

Let v := Availability.version_number r.

Lemma resume_reading_current c t :
  call_availability_id c = call_availability_id c1 ->
  call_version_number c = v ->
  availability (db t) !! call_availability_id c1 = Some r ->
  resume drv c Reading t = (Writing (v + 1), t).
Proof using find_ok.
  intros Hid Hv Hrow. unfold resume, try_catch.
  rewrite Hid, (checkVersion_found _ _ _ _ _ Hrow find_ok), Hv.
  by destruct (decide (Availability.version_number r ≠ v)).
Qed.

Lemma resume_writing c t r0 n :
  call_availability_id c = call_availability_id c1 ->
  availability (db t) !! call_availability_id c1 = Some r0 ->
  resume drv c (Writing n) t
  = (Settled (Return "success"),
     written t (call_availability_id c1) r0 (call_application_status c) n).
Proof using update_ok.
  intros Hid Hrow. unfold resume, try_catch.
  by rewrite Hid, (writeStatus_found _ _ _ _ _ _ Hrow update_ok).
Qed.

(** Both calls read before either writes: both pass the check, both write,
    and the row ends one version up, the second update applied to what the
    first one left. *)
Lemma race_lost_update :
  race drv c1 c2 [First; Second; First; Second] Reading Reading s
  = (Settled (Return "success"), Settled (Return "success"),
     written (written s (call_availability_id c1) r
                      (call_application_status c1) (v + 1))
             (call_availability_id c1)
             (updated r (call_application_status c1) (v + 1))
             (call_application_status c2) (v + 1)).
Proof using All.
  cbn [race].
  rewrite (resume_reading_current c1 s); [|done..].
  rewrite (resume_reading_current c2 s); [|done..].
  rewrite (resume_writing c1 s r); [|done..].
  by rewrite (resume_writing c2 _
                (updated r (call_application_status c1) (v + 1)));
    [|done|apply written_row].
Qed.

(** X25. Two status updates of the same row presenting its current version,
    one after the other: the second call starts after the first has settled,
    reads the version the first one wrote and is turned away with that
    version in the message; the row holds what the first call wrote. *)
Lemma race_serial :
  race drv c1 c2 [First; First; Second; Second] Reading Reading s
  = (Settled (Return "success"),
     Settled (Throw (wrap "Could not update application"
                          (version_expired (v + 1)))),
     written s (call_availability_id c1) r (call_application_status c1) (v + 1)).
Proof using All.
  cbn [race].
  rewrite (resume_reading_current c1 s); [|done..].
  rewrite (resume_writing c1 s r); [|done..].
  unfold resume at 1. unfold try_catch.
  rewrite <- same_row.
  rewrite (checkVersion_found _ _ _ _ _ (written_row _ _ _ _ _) find_ok).
  simpl. rewrite version2.
  destruct (decide (v + 1 ≠ Availability.version_number r)) as [|Heq]; [done|].
  exfalso. apply Heq. unfold v. lia.
Qed.

End Race.

(** One call resumed twice with nothing in between is the method itself. *)
Lemma resume_twice drv c c' t s :
  race drv c c' [First; First] Reading t s
  = (Settled (updateApplication drv (call_availability_id c)
                (call_application_status c) (call_version_number c) s).1,
     t,
     (updateApplication drv (call_availability_id c)
        (call_application_status c) (call_version_number c) s).2).
Proof.
  cbn [race]. unfold resume, updateApplication, try_catch, bind.
  destruct (checkVersion drv (call_availability_id c) (call_version_number c) s)
    as [[n|e] s1]; simpl.
  - by destruct (writeStatus drv (call_availability_id c)
                   (call_application_status c) n s1) as [[x|e] s2].
  - done.
Qed.

(** C3. Two recruiters update availability 1, both presenting version 0, and
    the second call reads before the first has written: neither is turned
    away. Both calls return "success", the row is at version 1, and the status
    written first is gone. *)
Theorem updateApplication_race_both_succeed :
  race healthy accept reject [First; Second; First; Second] Reading Reading
       (idle applied)
  = (Settled (Return "success"), Settled (Return "success"),
     idle (mkDatabase [alice] 2 {[ (VNum 1, VNum 3) := VNum 2 ]}
             {[ 1 := updated january (VStr "rejected") 1 ]} 2)).
Proof. vm_compute. reflexivity. Qed.

(** ** Errors that leave the DAO *)

Lemma prefix_append (p m : string) : String.prefix p (p +:+ m) = true.
Proof.
  induction p as [|a p IH]; simpl.
  - by destruct m.
  - by destruct (Ascii.ascii_dec a a).
Qed.

Lemma wrapped_wrap (p : string) (e : JsError) :
  p ∈ prefixes -> wrapped (wrap p e) = true.
Proof.
  intros Hp. unfold wrapped, wrap. cbn [ename message].
  rewrite bool_decide_eq_true_2 by done. cbn [andb].
  apply existsb_exists. exists p. split.
  - by apply list_elem_of_In.
  - apply prefix_append.
Qed.

(** Whatever [updateApplication] throws went through its [catch]. *)
Lemma updateApplication_throws_wrapped drv availability_id application_status
    version_number s e s' :
  updateApplication drv availability_id application_status version_number s
  = (Throw e, s') ->
  wrapped e = true.
Proof.
  unfold updateApplication, try_catch, updateFailed, throw.
  destruct (bind _ _ s) as [[x|e0] s0]; [done|].
  intros [= <- _]. apply wrapped_wrap. unfold prefixes. set_solver.
Qed.

(** C9. [findPersonIdByAuth] on an identity that carries neither a username
    nor an email: what leaves the method is the engine's ReferenceError for
    the unbound [error], not an error under one of the DAO's prefixes. *)
Theorem findPersonIdByAuth_leaks_ReferenceError drv s :
  findPersonIdByAuth drv ∅ s
  = (Throw (mkError ReferenceError "error is not defined"), s)
  /\ wrapped (mkError ReferenceError "error is not defined") = false.
Proof. split; reflexivity. Qed.

(** The other way out of the same method: the lookup finds nobody, and the
    destructuring of [null] is thrown as it is. *)
Lemma findPersonIdByAuth_leaks_TypeError :
  findPersonIdByAuth healthy {[ "username" := VStr "ghost" ]} (idle registered)
  = (Throw (destructure_null "person_id"), idle registered)
  /\ wrapped (destructure_null "person_id") = false.
Proof. split; vm_compute; reflexivity. Qed.

(** ** The person repository *)

Lemma select_lookup (attributes : list string) (row : object) (k : string) :
  select attributes row !! k
  = if decide (k ∈ attributes) then row !! k else None.
Proof.
  unfold select. apply option_eq. intros v.
  rewrite map_lookup_filter_Some. simpl.
  destruct (decide (k ∈ attributes)); intuition congruence.
Qed.

(** Settles each test [decide (k ∈ l)] on a closed name and a closed list. *)
Ltac decide_members :=
  repeat match goal with
  | |- context [decide (?k ∈ ?l)] =>
      let b := eval vm_compute in (bool_decide (k ∈ l)) in
      match b with
      | true =>
          rewrite (decide_True (P := k ∈ l))
            by (by apply (bool_decide_unpack _); vm_compute)
      | false =>
          rewrite (decide_False (P := k ∈ l))
            by (by apply (bool_decide_eq_false_1 (k ∈ l)); vm_compute)
      end
  end.

Lemma find_none_iff {A} (f : A -> bool) (l : list A) :
  List.find f l = None <-> forall x, x ∈ l -> f x = false.
Proof.
  split.
  - intros H x Hx. apply (find_none f l H). by apply list_elem_of_In.
  - intros H. induction l as [|a l IH]; [done|]. simpl.
    rewrite (H a) by set_solver. apply IH. intros x Hx. apply H. set_solver.
Qed.

Lemma Person_build_role_id seq (o : object) (v : value) :
  v ≠ VUndefined ->
  Person_build seq (<["role_id" := v]> o) !! "role_id" = Some v.
Proof.
  intros Hv. unfold Person_build.
  assert (column (<["role_id" := v]> o) "role_id" = v) as Hcol.
  { unfold column. rewrite lookup_insert_eq. by destruct v. }
  destruct (decide _); simpl; rewrite Hcol;
    rewrite !lookup_insert_ne by done; apply lookup_insert_eq.
Qed.

Section PersonRepository.

Variable drv : Driver.

(** C8. Whatever record [savePerson] is given, with or without a [role_id] of
    its own: if the database executes the insert the call returns "success",
    and whenever it returns, the person table has grown by exactly one row,
    whose [role_id] is 2; when it throws, no person has been persisted: the
    rows of the person table are what they were. *)
Theorem savePerson_applicant_role (record : object) (s : Store) :
  (drv PersonCreate = None ->
   exists s', savePerson drv record s = (Return "success", s'))
  /\ (forall x s',
        savePerson drv record s = (Return x, s') ->
        exists row,
          person (db s') = (person (db s) ++ [row])%list
          /\ row !! "role_id" = Some (VNum 2))
  /\ (forall e s',
        savePerson drv record s = (Throw e, s') ->
        person (db s') = person (db s)).
Proof.
  unfold savePerson, try_catch, bind, Person_create, query, autocommit, ret,
    throw.
  destruct (drv PersonCreate) as [m|]; simpl.
  - split; [done|]. split; [done|]. by intros e s' [= _ <-].
  - split; [by eexists|]. split; [|done].
    intros x s' [= _ <-]. simpl. eexists. split; [done|].
    by apply Person_build_role_id.
Qed.

Variable credentials : object.

Let username := prop credentials "username".
Let password := prop credentials "password".

(** C10. [login] with a username and a password, on a database that answers.
    If a person row holds exactly this pair, the call returns a DTO, and any
    DTO it returns was taken from such a row and carries its username, email
    and role_id and nothing else: password, ssn, name, surname and id are
    [undefined]. If no row holds the pair, the call returns [null]. The
    store is not touched. *)
Theorem login_returns_username_email_role (s : Store) :
  drv PersonFindOne = None ->
  username ≠ VUndefined ->
  password ≠ VUndefined ->
  ((exists row, row ∈ person (db s)
                /\ row !! "username" = Some username
                /\ row !! "password" = Some password) ->
   exists dto, login drv credentials s = (Return (Some dto), s))
  /\ (forall dto s',
        login drv credentials s = (Return (Some dto), s') ->
        exists row,
          row ∈ person (db s)
          /\ row !! "username" = Some username
          /\ row !! "password" = Some password
          /\ dto = PersonDTO.mk VUndefined VUndefined VUndefined VUndefined
                     (prop row "email") VUndefined (prop row "role_id")
                     username)
  /\ ((forall row, row ∈ person (db s) ->
         ~ (row !! "username" = Some username
            /\ row !! "password" = Some password)) ->
      login drv credentials s = (Return None, s)).
Proof using Type*.
  intros Hdrv Hu Hp.
  set (w := [("username", username); ("password", password)]).
  assert (Hmatch : forall row, matches w row = true
            <-> row !! "username" = Some username
                /\ row !! "password" = Some password).
  { intros row. unfold matches, w. simpl.
    rewrite andb_true_r, andb_true_iff, !bool_decide_eq_true. done. }
  assert (Hrun : login drv credentials s
            = (Return (createPersonDto
                         <$> (select ["username"; "email"; "role_id"]
                                <$> List.find (matches w) (person (db s)))),
               s)).
  { unfold login, try_catch, bind, Person_findOne, check_where, query,
      autocommit, ret. fold username password. simpl.
    rewrite !bool_decide_eq_false_2 by done. simpl. rewrite Hdrv.
    fold w. destruct s as [d t]. simpl.
    by destruct (List.find (matches w) (person d)). }
  assert (Hdto : forall row, row !! "username" = Some username ->
            createPersonDto (select ["username"; "email"; "role_id"] row)
            = PersonDTO.mk VUndefined VUndefined VUndefined VUndefined
                (prop row "email") VUndefined (prop row "role_id") username).
  { intros row Hrow. unfold createPersonDto, prop.
    rewrite !select_lookup, Hrow.
    by decide_members. }
  rewrite Hrun. split; [|split].
  - intros (row & Hin & Hrow).
    destruct (List.find (matches w) (person (db s))) as [row'|] eqn:Hfind.
    + by eexists.
    + exfalso. apply find_none_iff with (x := row) in Hfind; [|done].
      apply Hmatch in Hrow. congruence.
  - intros dto s'.
    destruct (List.find (matches w) (person (db s))) as [row|] eqn:Hfind;
      [|done].
    intros [= <- <-]. apply find_some in Hfind as [Hin Hrow].
    apply Hmatch in Hrow as [Hrow1 Hrow2].
    exists row. split; [by apply list_elem_of_In|].
    split; [done|]. split; [done|]. by apply Hdto.
  - intros Hnone.
    destruct (List.find (matches w) (person (db s))) as [row|] eqn:Hfind;
      [|done].
    exfalso. apply find_some in Hfind as [Hin Hrow].
    apply Hmatch in Hrow. apply (Hnone row); [by apply list_elem_of_In|done].
Qed.

End PersonRepository.

(** ** Submission *)

Lemma preserves_ret {A} P (a : A) : preserves P (ret a).
Proof. by intros s. Qed.

Lemma preserves_throw {A} P e : preserves P (@throw A e).
Proof. by intros s. Qed.

Lemma preserves_bind {A B} P (m : dao A) (k : A -> dao B) :
  preserves P m -> (forall a, preserves P (k a)) -> preserves P (bind m k).
Proof.
  intros Hm Hk s Hs. unfold bind.
  specialize (Hm s Hs). destruct (m s) as [[a|e] s1]; simpl in *; [|done].
  by apply Hk.
Qed.

Lemma preserves_detach {A} P (m : dao A) :
  preserves P m -> preserves P (detach m).
Proof. intros Hm s Hs. by apply Hm. Qed.

Lemma preserves_detach_all {A} P (ms : list (dao A)) :
  Forall (preserves P) ms -> preserves P (detach_all ms).
Proof.
  induction 1 as [|m ms Hm _ IH]; simpl.
  - apply preserves_ret.
  - apply preserves_bind; [by apply preserves_detach|done].
Qed.

Lemma preserves_query {A} P drv st (m : dao A) :
  preserves P m -> preserves P (query drv st m).
Proof.
  intros Hm s Hs. unfold query. destruct (drv st); [done|]. by apply Hm.
Qed.

Lemma preserves_check_where P w : preserves P (check_where w).
Proof.
  unfold check_where. destruct (List.find _ w);
    [apply preserves_throw|apply preserves_ret].
Qed.

Lemma preserves_run {A} P (m : dao A) s r s' :
  preserves P m -> P s -> m s = (r, s') -> P s'.
Proof. intros Hm Hs Hrun. specialize (Hm s Hs). by rewrite Hrun in Hm. Qed.

Lemma bind_Return {A B} (m : dao A) (k : A -> dao B) s b s' :
  bind m k s = (Return b, s') ->
  exists a s1, m s = (Return a, s1) /\ k a s1 = (Return b, s').
Proof. unfold bind. destruct (m s) as [[a|e] s1]; [eauto|done]. Qed.

Lemma preserves_in_transaction {A} d (f : Database -> A * Database) :
  (forall t, availability (f t).2 = availability t
             /\ availability_seq (f t).2 = availability_seq t) ->
  preserves (pending d) (in_transaction f).
Proof.
  intros Hf s (Hdb & t & Ht & Hav & Hseq). unfold in_transaction.
  rewrite Ht. specialize (Hf t). destruct (f t) as [a t']. simpl in *.
  split; [done|]. exists t'. intuition congruence.
Qed.

Lemma foldl_Availability_insert_seq (l : list object) (t : Database) :
  availability_seq (foldl Availability_insert t l)
  = availability_seq t + Z.of_nat (length (unnumbered l)).
Proof.
  revert t. induction l as [|o l IH]; intros t; [simpl; lia|].
  cbn [foldl]. rewrite IH. unfold unnumbered. rewrite filter_cons.
  unfold Availability_insert. simpl.
  destruct (own_id o) as [n|]; simpl; [done|lia].
Qed.

(** A bulk insert touches the rows under the ids of its records and no
    other. *)
Lemma foldl_Availability_insert_elsewhere (l : list object) (t : Database) k :
  k ∉ Availability_ids (availability_seq t) l ->
  availability (foldl Availability_insert t l) !! k = availability t !! k.
Proof.
  revert t. induction l as [|o l IH]; intros t Hk; [done|].
  cbn [foldl]. simpl in Hk.
  rewrite IH.
  - unfold Availability_insert, Availability_build. simpl.
    apply lookup_insert_ne.
    destruct (own_id o) as [n|]; simpl; intros <-; apply Hk; left.
  - unfold Availability_insert. simpl.
    destruct (own_id o) as [n|]; simpl; intros Hin; apply Hk; by right.
Qed.

(** When the ids of a bulk insert are pairwise distinct, each record has its
    row under its id. *)
Lemma foldl_Availability_insert_lookup (l : list object) (t : Database)
    (i : nat) (o : object) (k : Z) :
  NoDup (Availability_ids (availability_seq t) l) ->
  l !! i = Some o ->
  Availability_ids (availability_seq t) l !! i = Some k ->
  exists seq,
    availability (foldl Availability_insert t l) !! k
    = Some (Availability_build seq o)
    /\ Availability.availability_id (Availability_build seq o) = k.
Proof.
  revert t i. induction l as [|o' l IH]; intros t i Hdup Hi Hk; [done|].
  cbn [foldl]. simpl in Hdup, Hk.
  assert (availability_seq (Availability_insert t o')
          = match own_id o' with
            | Some _ => availability_seq t
            | None => Z.succ (availability_seq t)
            end) as Hseq.
  { unfold Availability_insert. simpl. by destruct (own_id o'). }
  destruct i as [|i].
  - injection Hi as ->. exists (availability_seq t).
    assert (Availability.availability_id
              (Availability_build (availability_seq t) o) = k) as Hid.
    { unfold Availability_build. simpl.
      destruct (own_id o); simpl in *; by injection Hk. }
    split; [|done].
    rewrite foldl_Availability_insert_elsewhere.
    + unfold Availability_insert, set_availability. cbn [availability].
      rewrite Hid. apply lookup_insert_eq.
    + rewrite Hseq.
      destruct (own_id o); simpl in *; injection Hk as <-;
        by apply NoDup_cons in Hdup as [? _].
  - apply (IH (Availability_insert t o') i); [|done|];
      rewrite Hseq; destruct (own_id o'); simpl in *;
      first [done | by apply NoDup_cons in Hdup as [_ ?]].
Qed.

(** A record that brings an id is filed under it; one that brings none is
    filed under the value the sequence has reached after the records before
    it that brought none either. *)
Lemma Availability_ids_lookup (l : list object) seq (i : nat) (o : object) k :
  l !! i = Some o ->
  Availability_ids seq l !! i = Some k ->
  k = default (seq + Z.of_nat (length (unnumbered (take i l)))) (own_id o).
Proof.
  revert seq i. induction l as [|o' l IH]; intros seq i Hi Hk; [done|].
  simpl in Hk. destruct i as [|i].
  - injection Hi as ->. simpl.
    destruct (own_id o); simpl in *; injection Hk as <-; lia.
  - cbn [take]. unfold unnumbered. rewrite filter_cons.
    fold (unnumbered (take i l)).
    destruct (own_id o') eqn:Hown; simpl in Hk.
    + rewrite decide_False by done. by apply IH.
    + rewrite decide_True by done. rewrite (IH _ _ Hi Hk). simpl length.
      destruct (own_id o); simpl; lia.
Qed.

Lemma availabilityOf_lookup person_id (p : object) (k : string) :
  k ≠ "person_id" -> k ≠ "version_number" ->
  availabilityOf person_id p !! k = p !! k.
Proof.
  intros H1 H2. unfold availabilityOf.
  rewrite lookup_insert_ne by done. rewrite lookup_union.
  rewrite lookup_singleton_ne by done. by destruct (p !! k).
Qed.

Lemma availabilityOf_own_id person_id (p : object) :
  own_id (availabilityOf person_id p) = own_id p.
Proof. unfold own_id. by rewrite availabilityOf_lookup. Qed.

Lemma availabilityOf_ids person_id (periods : list object) seq :
  Availability_ids seq (map (availabilityOf person_id) periods)
  = Availability_ids seq periods.
Proof.
  revert seq. induction periods as [|p periods IH]; intros seq; [done|].
  simpl. rewrite availabilityOf_own_id.
  destruct (own_id p); by rewrite IH.
Qed.

Lemma availabilityOf_unnumbered person_id (periods : list object) :
  length (unnumbered (map (availabilityOf person_id) periods))
  = length (unnumbered periods).
Proof.
  unfold unnumbered. induction periods as [|p periods IH]; [done|].
  simpl. rewrite !filter_cons, availabilityOf_own_id.
  destruct (decide (own_id p = None)); simpl; by rewrite IH.
Qed.

Lemma availabilityOf_version id person_id (p : object) :
  Availability.version_number (Availability_build id (availabilityOf person_id p))
  = 0.
Proof. unfold Availability_build, availabilityOf. simpl. by rewrite lookup_insert_eq. Qed.

Lemma bind_cases {A B} (m : dao A) (k : A -> dao B) s r s' :
  bind m k s = (r, s') ->
  (exists e, m s = (Throw e, s') /\ r = Throw e)
  \/ (exists a s1, m s = (Return a, s1) /\ k a s1 = (r, s')).
Proof.
  unfold bind. destruct (m s) as [[a|e] s1]; [eauto|].
  intros [= <- <-]. eauto.
Qed.

Lemma try_catch_cases {A} (m : dao A) (h : JsError -> dao A) s r s' :
  try_catch m h s = (r, s') ->
  (exists a, m s = (Return a, s') /\ r = Return a)
  \/ (exists e s1, m s = (Throw e, s1) /\ h e s1 = (r, s')).
Proof.
  unfold try_catch. destruct (m s) as [[a|e] s1]; [|eauto].
  intros [= <- <-]. eauto.
Qed.

Section Submission.

Variable drv : Driver.

Lemma Person_findOne_store w attributes s r s' :
  Person_findOne drv w attributes s = (r, s') -> s' = s.
Proof.
  unfold Person_findOne, check_where, bind, query, autocommit, throw, ret.
  destruct (List.find _ w); [by intros [= _ <-]|].
  destruct (drv PersonFindOne); [by intros [= _ <-]|].
  destruct s. by intros [= _ <-].
Qed.

Lemma findPersonByParameter_store key param s r s' :
  findPersonByParameter drv key param s = (r, s') -> s' = s.
Proof.
  unfold findPersonByParameter, try_catch, bind, throw, ret.
  destruct (Person_findOne drv _ None s) as [[[o|]|e] s1] eqn:Hfind;
    apply Person_findOne_store in Hfind as ->; by intros [= _ <-].
Qed.

Lemma findPersonByUsername_store username s r s' :
  findPersonByUsername drv username s = (r, s') -> s' = s.
Proof.
  unfold findPersonByUsername, Validators.isStringNonZeroLength,
    Validators.isAlphanumericString, Validators.isString,
    Validators.assertion, bind.
  repeat (match goal with
          | |- context [if ?b then _ else _] => destruct b
          end; simpl; unfold throw, ret; simpl);
    try (by intros [= _ <-]); apply findPersonByParameter_store.
Qed.

(** A username that no person row carries resolves to [null], unless the
    validators or the database turn the lookup down first. *)
Lemma findPersonByUsername_unknown username s r s' :
  (forall row, row ∈ person (db s) -> row !! "username" ≠ Some username) ->
  findPersonByUsername drv username s = (r, s') ->
  (forall dto, r ≠ Return (Some dto))
  /\ (drv PersonFindOne = None ->
      Validators.isAlphanumeric username = true -> r = Return None).
Proof.
  intros Hnone.
  assert (List.find (matches [("username", username)]) (person (db s)) = None)
    as Hfind.
  { apply find_none_iff. intros row Hrow. unfold matches. simpl.
    rewrite andb_true_r. apply bool_decide_eq_false. by apply Hnone. }
  unfold findPersonByUsername, Validators.isStringNonZeroLength,
    Validators.isAlphanumericString, Validators.isString,
    Validators.assertion, Validators.isEmpty, Validators.isAlphanumeric,
    bind.
  destruct username as [| |b|n|u]; simpl; unfold throw;
    try (intros [= <- _]; split; [done|by intros]).
  destruct (String.eqb u EmptyString); simpl;
    [intros [= <- _]; split; [done|by intros]|].
  destruct (forallb Validators.alphanumeric _); simpl;
    [|intros [= <- _]; split; [done|by intros]].
  unfold findPersonByParameter, try_catch, bind, Person_findOne, check_where,
    query, autocommit, ret, throw. simpl.
  destruct (drv PersonFindOne); simpl.
  - intros [= <- _]. split; [done|by intros].
  - rewrite Hfind. destruct s. simpl. intros [= <- _]. by split.
Qed.

Lemma destructure_person_id_cases dto s r s' :
  destructure_person_id dto s = (r, s') ->
  s' = s
  /\ match dto with
     | Some d => r = Return (PersonDTO.person_id d)
     | None => r = Throw (destructure_null "person_id")
     end.
Proof. destruct dto; by intros [= <- <-]. Qed.

Lemma CompetenceProfile_bulkCreate_pending d records :
  preserves (pending d) (CompetenceProfile_bulkCreate drv records).
Proof.
  unfold CompetenceProfile_bulkCreate. destruct records; [apply preserves_ret|].
  apply preserves_query, preserves_in_transaction. by intros t.
Qed.

Lemma updateExperience_pending d profile :
  preserves (pending d) (updateExperience drv profile).
Proof.
  unfold updateExperience, CompetenceProfile_update.
  apply preserves_bind; [apply preserves_check_where|]. intros _.
  apply preserves_query, preserves_in_transaction. intros t.
  destruct (competence_profile t !! _); [|done]. by destruct (decide _).
Qed.

Lemma updates_pending d profiles :
  preserves (pending d) (detach_all (map (updateExperience drv) profiles)).
Proof.
  apply preserves_detach_all, Forall_forall. intros m Hm.
  apply list_elem_of_fmap in Hm as (profile & -> & _).
  apply updateExperience_pending.
Qed.

Lemma Availability_bulkCreate_cases d records s r s' :
  pending d s ->
  Availability_bulkCreate drv records s = (r, s') ->
  db s' = d
  /\ exists t, txn s = Some t
               /\ availability t = availability d
               /\ availability_seq t = availability_seq d
               /\ (forall x, r = Return x ->
                     txn s' = Some (foldl Availability_insert t records)).
Proof.
  intros (Hdb & t & Ht & Hav & Hseq).
  unfold Availability_bulkCreate.
  destruct records as [|o records].
  - intros [= <- <-]. split; [done|]. exists t. by repeat split.
  - unfold query, in_transaction. destruct (drv AvailabilityBulkCreate).
    + intros [= <- <-]. split; [done|]. exists t. by repeat split.
    + rewrite Ht. intros [= <- <-]. split; [done|]. exists t. by repeat split.
Qed.

Lemma commit_db s : db (commit drv s).2 = db s \/ txn s = Some (db (commit drv s).2).
Proof.
  unfold commit, query. destruct (drv Commit); [by left|].
  destruct (txn s) eqn:Ht; simpl; [by right|by left].
Qed.

Lemma rollback_db s : db (rollback drv s).2 = db s.
Proof. unfold rollback, query. by destruct (drv Rollback). Qed.

(** How a submission on a database at rest can end: the transaction does not
    open; or the [try] block throws before the commit, with nothing
    committed; or it runs to its end, the working copy then holding the
    availability table of before plus one row per period. *)
Lemma submitApplication_cases d username competencies periods r s' :
  submitApplication drv username competencies periods (idle d) = (r, s') ->
  (exists e, r = Throw e /\ drv Transaction <> None /\ s' = idle d)
  \/ (exists e s2,
        r = Throw (wrap "Failed to submit application." e)
        /\ drv Transaction = None
        /\ db s2 = d /\ s' = (rollback drv s2).2
        /\ (forall x, findPersonByUsername drv username (mkStore d (Some d))
                      = (x, mkStore d (Some d)) ->
              match x with
              | Return None => e = destructure_null "person_id"
              | Return (Some _) => True
              | Throw e' => e = e'
              end))
  \/ (exists dto t,
        r = Return "success"
        /\ findPersonByUsername drv username (mkStore d (Some d))
           = (Return (Some dto), mkStore d (Some d))
        /\ availability t = availability d
        /\ availability_seq t = availability_seq d
        /\ s' = (commit drv
                   (mkStore d
                      (Some (foldl Availability_insert t
                               (map (availabilityOf (PersonDTO.person_id dto))
                                    periods))))).2).
Proof.
  unfold submitApplication. intros H.
  apply bind_cases in H as [(e & H1 & ->)|([] & s1 & H1 & H)].
  { left. exists e. unfold transaction, query in H1.
    destruct (drv Transaction); [|done]. by injection H1 as _ <-. }
  assert (drv Transaction = None /\ s1 = mkStore d (Some d)) as [Htx ->].
  { unfold transaction, query in H1.
    destruct (drv Transaction); [done|]. by injection H1 as <-. }
  assert (pending d (mkStore d (Some d))) as Hpending.
  { split; [done|]. by exists d. }
  right.
  apply try_catch_cases in H as [(a & H & ->)|(e & s2 & H & Hh)].
  - (* the block ran to its end *)
    right.
    apply bind_Return in H as (dto & s2 & Hfind & H).
    pose proof (findPersonByUsername_store _ _ _ _ Hfind) as ->.
    apply bind_Return in H as (person_id & s3 & Hid & H).
    apply destructure_person_id_cases in Hid as [-> Hid].
    destruct dto as [dto|]; [|done]. injection Hid as ->.
    apply bind_Return in H as ([] & s4 & Hbulk & H).
    pose proof (preserves_run _ _ _ _ _
                  (CompetenceProfile_bulkCreate_pending d _) Hpending Hbulk)
      as P4.
    apply bind_Return in H as ([] & s5 & Hupd & H).
    pose proof (preserves_run _ _ _ _ _ (updates_pending d _) P4 Hupd) as P5.
    apply bind_Return in H as ([] & s6 & Hav & H).
    destruct (Availability_bulkCreate_cases _ _ _ _ _ P5 Hav)
      as (Hdb6 & t & Ht5 & Hta & Hts & Ht6).
    specialize (Ht6 _ eq_refl).
    apply bind_Return in H as ([] & s7 & Hcommit & H).
    injection H as <- <-.
    exists dto, t. repeat split; try done.
    unfold detach in Hcommit. injection Hcommit as <-.
    destruct s6 as [d6 t6]. simpl in *. by subst.
  - (* the block threw *)
    left.
    apply bind_cases in Hh as [(e' & Hh & _)|([] & s3 & Hroll & Hh)];
      [done|].
    injection Hh as <- <-. unfold detach in Hroll. injection Hroll as <-.
    exists e, s2. split; [done|]. split; [done|].
    apply bind_cases in H as [(e' & Hfind & [= ->])|(dto & s3 & Hfind & H)].
    { pose proof (findPersonByUsername_store _ _ _ _ Hfind) as ->.
      repeat split; try done. intros x Hx. rewrite Hx in Hfind.
      by injection Hfind as ->. }
    pose proof (findPersonByUsername_store _ _ _ _ Hfind) as ->.
    apply bind_cases in H as [(e' & Hid & [= ->])|(pid & s4 & Hid & H)].
    { apply destructure_person_id_cases in Hid as [-> Hid].
      repeat split; try done. intros x Hx. rewrite Hx in Hfind.
      injection Hfind as ->. destruct dto; [done|]. by injection Hid. }
    apply destructure_person_id_cases in Hid as [-> Hid].
    assert (forall x,
      findPersonByUsername drv username (mkStore d (Some d))
        = (x, mkStore d (Some d)) ->
      match x with
      | Return None => e = destructure_null "person_id"
      | Return (Some _) => True
      | Throw e' => e = e'
      end) as Hcause.
    { intros x Hx. rewrite Hx in Hfind. injection Hfind as ->.
      by destruct dto. }
    apply bind_cases in H as [(e' & Hbulk & [= ->])|([] & s5 & Hbulk & H)].
    { by destruct (preserves_run _ _ _ _ _
                     (CompetenceProfile_bulkCreate_pending d _)
                     Hpending Hbulk). }
    pose proof (preserves_run _ _ _ _ _
                  (CompetenceProfile_bulkCreate_pending d _) Hpending Hbulk)
      as P5.
    apply bind_cases in H as [(e' & Hupd & [= ->])|([] & s6 & Hupd & H)].
    { by destruct (preserves_run _ _ _ _ _ (updates_pending d _) P5 Hupd). }
    pose proof (preserves_run _ _ _ _ _ (updates_pending d _) P5 Hupd) as P6.
    apply bind_cases in H as [(e' & Hav & [= ->])|([] & s7 & Hav & H)].
    { by destruct (Availability_bulkCreate_cases _ _ _ _ _ P6 Hav) as [? _]. }
    apply bind_cases in H as [(e' & Hcommit & _)|([] & s8 & _ & H)]; done.
Qed.


(** C5. A submission under a username that no person row carries throws, and
    the committed tables are what they were. Once the transaction has
    opened, what is thrown is the one [Error] that every failure inside the
    transaction ends in: the one of the [catch] of [submitApplication], its
    message under the prefix of the method. *)
Theorem submitApplication_unknown_username d username competencies periods :
  (forall row, row ∈ person d -> row !! "username" ≠ Some username) ->
  exists e s',
    submitApplication drv username competencies periods (idle d) = (Throw e, s')
    /\ db s' = d
    /\ (drv Transaction = None ->
        exists cause, e = wrap "Failed to submit application." cause).
Proof.
  intros Hnone.
  destruct (submitApplication drv username competencies periods (idle d))
    as [r s'] eqn:H.
  destruct (findPersonByUsername drv username (mkStore d (Some d)))
    as [x sx] eqn:Hfind.
  pose proof (findPersonByUsername_store _ _ _ _ Hfind) as ->.
  destruct (findPersonByUsername_unknown username (mkStore d (Some d)) _ _
              Hnone Hfind) as [Hnot _].
  apply submitApplication_cases in H
    as [(e & -> & Hne & ->)
       |[(e & s2 & -> & _ & Hdb & -> & _)
        |(dto & t & _ & Hfind' & _)]].
  - by exists e, (idle d).
  - eexists _, _. split; [done|]. split; [by rewrite rollback_db|by eexists].
  - rewrite Hfind' in Hfind. injection Hfind as <-. by destruct (Hnot dto).
Qed.

(** X27. On a submission that returned and was committed, where every period
    leaves its id to the database or brings a number for it: the sequence has
    advanced by the number of periods that brought no id, and the rows under
    every id that is not the id of one of the new rows are untouched. *)
Lemma submitApplication_success_availabilities d username competencies periods
    x s' :
  submitApplication drv username competencies periods (idle d) = (Return x, s') ->
  drv Commit = None ->
  Forall (fun p => id_or_none (prop p "availability_id") = true) periods ->
  availability_seq (db s')
  = availability_seq d + Z.of_nat (length (unnumbered periods))
  /\ forall k, k ∉ Availability_ids (availability_seq d) periods ->
               availability (db s') !! k = availability d !! k.
Proof.
  intros H Hcommit _.
  apply submitApplication_cases in H
    as [(e & ? & _)|[(e & s2 & ? & _)|(dto & t & _ & _ & Hav & Hseq & ->)]];
    [done..|].
  unfold commit, query. rewrite Hcommit. simpl. split.
  - by rewrite foldl_Availability_insert_seq, availabilityOf_unnumbered, Hseq.
  - intros k Hk. rewrite foldl_Availability_insert_elsewhere.
    + by rewrite Hav.
    + by rewrite availabilityOf_ids, Hseq.
Qed.

End Submission.

(** ** The submission and the updates nobody awaits *)

(** C4. alice submits one competence and one period, and the update of step 4
    is rejected. The call still returns "success" and the transaction is
    committed: the profile row and the availability row of the submission are
    in the tables, although a step of it failed. *)
Theorem submitApplication_failed_update_committed :
  let run := submitApplication update_rejected (VStr "alice") [two_years]
               [ten_days] (idle registered) in
  (forall s,
     (updateExperience update_rejected
        (competenceProfile (VNum 1) two_years) s).1
     = Throw (mkError DriverError "the statement was rejected"))
  /\ run.1 = Return "success"
  /\ txn run.2 = None
  /\ competence_profile (db run.2) !! (VNum 1, VNum 3) = Some (VNum 2)
  /\ availability (db run.2) !! 1 = Some january
  /\ competence_profile registered !! (VNum 1, VNum 3) = None
  /\ availability registered !! 1 = None.
Proof. repeat split; vm_compute; reflexivity. Qed.

(** C6. alice submits competence 3 with two years, then again with five, and
    the update of the second submission is rejected. Both calls return
    "success"; there is one row for (alice, 3), and it still holds two
    years, not the five of the latest submission. *)
Theorem submitApplication_resubmission_keeps_old_value :
  let first := submitApplication healthy (VStr "alice") [two_years]
                 [ten_days] (idle registered) in
  let second := submitApplication update_rejected (VStr "alice") [five_years]
                  [ten_days] first.2 in
  first.1 = Return "success"
  /\ first.2 = idle applied
  /\ second.1 = Return "success"
  /\ competence_profile (db second.2) = {[ (VNum 1, VNum 3) := VNum 2 ]}.
Proof. repeat split; vm_compute; reflexivity. Qed.

(** When the update is executed, the same resubmission leaves the five
    years in the row. *)
Lemma submitApplication_resubmission_healthy :
  competence_profile
    (db (submitApplication healthy (VStr "alice") [five_years] [ten_days]
           (idle applied)).2)
  = {[ (VNum 1, VNum 3) := VNum 5 ]}.
Proof. vm_compute. reflexivity. Qed.

(** C7. alice submits a period that carries a status and a version of its
    own. The call returns "success"; the version of the row is the 0 that
    [submitApplication] writes after the spread, whatever the period brought,
    and the status is the one the period brought, not "unhandled": nothing is
    written after the spread for it. *)
Theorem submitApplication_status_of_period :
  let run := submitApplication healthy (VStr "alice") [] [preapproved]
               (idle registered) in
  prop preapproved "version_number" = VNum 7
  /\ prop preapproved "application_status" = VStr "accepted"
  /\ run.1 = Return "success"
  /\ exists row,
       availability (db run.2) !! 1 = Some row
       /\ Availability.version_number row = 0
       /\ Availability.application_status row = VStr "accepted"
       /\ Availability.application_status row ≠ VStr "unhandled".
Proof.
  split; [vm_compute; reflexivity|].
  split; [vm_compute; reflexivity|].
  split; [vm_compute; reflexivity|].
  exists (updated january (VStr "accepted") 0).
  repeat split; try (vm_compute; reflexivity). by vm_compute.
Qed.

(** C5, as the claim has it, fails on the unknown username "bob": what the
    call throws does not tell of a person that was not found. It is a plain
    [Error] under the prefix of the method, as is the error of a submission
    of a known applicant whose insert the database rejects; behind the
    prefix stands the message of a TypeError, the one of reading [person_id]
    off the [null] that the lookup returned. *)
Lemma submitApplication_unknown_username_error :
  submitApplication healthy (VStr "bob") [two_years] [ten_days]
                    (idle registered)
  = (Throw (wrap "Failed to submit application."
                 (destructure_null "person_id")),
     idle registered)
  /\ ename (wrap "Failed to submit application."
                 (destructure_null "person_id")) = Error
  /\ ename (destructure_null "person_id") = TypeError
  /\ (submitApplication bad_dates (VStr "alice") [two_years] [ten_days]
                        (idle registered)).1
     = Throw (wrap "Failed to submit application."
                   (mkError DriverError "invalid input syntax for type date")).
Proof. repeat split; vm_compute; reflexivity. Qed.

(** ** The theorems at work on the small database *)

Lemma updateApplication_increments_version_witness :
  availability (db (idle applied)) !! 1 = Some january
  /\ updateApplication healthy 1 (VStr "accepted") 0 (idle applied)
     = (Return "success", written (idle applied) 1 january (VStr "accepted") 1).
Proof.
  split; [reflexivity|].
  apply (updateApplication_increments_version healthy 1 (VStr "accepted")
           (idle applied) january 0); reflexivity.
Defined.

Lemma updateApplication_stale_version_witness :
  exists e,
    updateApplication healthy 1 (VStr "accepted") 3 (idle applied)
    = (Throw e, idle applied)
    /\ (healthy AvailabilityFindByPk = None ->
        e = mkError Error
              ("Could not update application"
               +:+ "Version number expired. Current version: "
               +:+ pretty (Availability.version_number january))).
Proof.
  apply (updateApplication_stale_version healthy 1 (VStr "accepted")
           (idle applied) january 3); [reflexivity|simpl; lia].
Defined.

Lemma submitApplication_unknown_username_witness :
  exists e s',
    submitApplication healthy (VStr "bob") [two_years] [ten_days]
                      (idle registered) = (Throw e, s')
    /\ db s' = registered
    /\ exists cause, e = wrap "Failed to submit application." cause.
Proof.
  destruct (submitApplication_unknown_username healthy registered (VStr "bob")
              [two_years] [ten_days]) as (e & s' & Hrun & Hdb & Herror).
  { intros row Hrow. apply list_elem_of_singleton in Hrow. subst row.
    vm_compute. discriminate. }
  exists e, s'. split; [exact Hrun|]. split; [exact Hdb|].
  exact (Herror eq_refl).
Defined.

Lemma savePerson_applicant_role_witness :
  exists row,
    person (db (savePerson healthy {[ "username" := VStr "eve";
                                      "role_id" := VNum 1 ]}
                  (idle registered)).2)
    = [alice; row]
    /\ row !! "role_id" = Some (VNum 2).
Proof.
  destruct (savePerson_applicant_role healthy
              {[ "username" := VStr "eve"; "role_id" := VNum 1 ]}
              (idle registered)) as (_ & Hrow & _).
  exact (Hrow "success" _ eq_refl).
Defined.

Lemma login_returns_username_email_role_witness :
  login healthy {[ "username" := VStr "alice"; "password" := VStr "s3cret" ]}
        (idle registered)
  = (Return (Some (PersonDTO.mk VUndefined VUndefined VUndefined VUndefined
                     (VStr "alice@example.com") VUndefined (VNum 2)
                     (VStr "alice"))),
     idle registered).
Proof.
  destruct (login_returns_username_email_role healthy
              {[ "username" := VStr "alice"; "password" := VStr "s3cret" ]}
              (idle registered) eq_refl) as (Hsome & Hdto & _);
    [vm_compute; discriminate..|].
  destruct Hsome as [dto Hrun].
  { exists alice. split; [apply list_elem_of_singleton; reflexivity|].
    split; reflexivity. }
  destruct (Hdto _ _ Hrun) as (row & Hin & _ & _ & ->).
  apply list_elem_of_singleton in Hin. subst row. exact Hrun.
Defined.

(** * Further properties *)

(** ** Status update: what a call changes *)

(** A call that returns found the row at the version it was given and wrote
    the status and the next version into it. *)
Lemma updateApplication_returned drv availability_id application_status
    version_number s x s' :
  updateApplication drv availability_id application_status version_number s
  = (Return x, s') ->
  exists r,
    availability (db s) !! availability_id = Some r
    /\ Availability.version_number r = version_number
    /\ s' = written s availability_id r application_status (version_number + 1).
Proof.
  unfold updateApplication. intros H.
  apply try_catch_cases in H as [(a & H & [= <-])|(e & s1 & _ & H)]; [|done].
  apply bind_Return in H as (n & s1 & Hcheck & Hwrite).
  pose proof (checkVersion_store _ _ _ _ _ _ Hcheck) as ->.
  destruct (availability (db s) !! availability_id) as [r|] eqn:Hrow.
  - destruct (checkVersion_passed _ _ _ _ _ _ _ Hrow Hcheck) as [Hv ->].
    exists r. repeat split; [done|].
    by apply (writeStatus_returned _ _ _ _ _ _ _ _ Hrow Hwrite).
  - exfalso. revert Hcheck.
    unfold checkVersion, Availability_findByPk, query, autocommit, bind, throw.
    destruct (drv AvailabilityFindByPk); [done|]. simpl. by rewrite Hrow.
Qed.

Lemma updateApplication_thrown_store drv availability_id application_status
    version_number s e s' :
  updateApplication drv availability_id application_status version_number s
  = (Throw e, s') ->
  s' = s.
Proof.
  unfold updateApplication. intros H.
  apply try_catch_cases in H as [(a & _ & [=])|(e0 & s1 & H & Hh)].
  injection Hh as _ <-.
  apply bind_cases in H as [(e' & Hcheck & _)|(n & s2 & Hcheck & Hwrite)].
  - by apply checkVersion_store in Hcheck.
  - apply checkVersion_store in Hcheck as ->. revert Hwrite.
    unfold writeStatus, Availability_update, query, autocommit, bind, ret.
    destruct (drv AvailabilityUpdate); [by intros [= _ <-]|]. simpl.
    by destruct (availability (db s) !! availability_id).
Qed.

(** X1. A status update that throws has changed nothing, and what it throws
    is an [Error] whose message starts with "Could not update application". *)
Theorem updateApplication_failure_changes_nothing drv availability_id
    application_status version_number s e s' :
  updateApplication drv availability_id application_status version_number s
  = (Throw e, s') ->
  s' = s /\ exists cause, e = wrap "Could not update application" cause.
Proof.
  intros H. split; [by apply updateApplication_thrown_store in H|].
  unfold updateApplication in H.
  apply try_catch_cases in H as [(a & _ & [=])|(e0 & s1 & _ & Hh)].
  injection Hh as <- _. by eexists.
Qed.

(** X2. A status update of an availability that does not exist throws and
    changes nothing; when the database answered the read, the cause is the
    reading of [version_number] off [null]. *)
Theorem updateApplication_missing_row drv availability_id application_status
    version_number s :
  availability (db s) !! availability_id = None ->
  exists e,
    updateApplication drv availability_id application_status version_number s
    = (Throw e, s)
    /\ (drv AvailabilityFindByPk = None ->
        e = wrap "Could not update application" (read_of_null "version_number")).
Proof.
  intros Hrow.
  unfold updateApplication, checkVersion, Availability_findByPk, query,
    autocommit, updateFailed, throw, try_catch, bind.
  destruct s as [d t]. simpl in *.
  destruct (drv AvailabilityFindByPk) as [m|]; simpl.
  - by eexists.
  - rewrite Hrow. by eexists.
Qed.

(** X3. A status update that returns has written two columns of one row: the
    persons, the competence profiles, both sequences and the open transaction
    are what they were, every other availability is what it was, and the row
    itself keeps its id, its person and its dates. *)
Theorem updateApplication_frame drv availability_id application_status
    version_number s x s' :
  updateApplication drv availability_id application_status version_number s
  = (Return x, s') ->
  person (db s') = person (db s)
  /\ person_seq (db s') = person_seq (db s)
  /\ competence_profile (db s') = competence_profile (db s)
  /\ availability_seq (db s') = availability_seq (db s)
  /\ txn s' = txn s
  /\ (forall other, other ≠ availability_id ->
        availability (db s') !! other = availability (db s) !! other)
  /\ exists r r',
       availability (db s) !! availability_id = Some r
       /\ availability (db s') !! availability_id = Some r'
       /\ Availability.availability_id r' = Availability.availability_id r
       /\ Availability.person_id r' = Availability.person_id r
       /\ Availability.from_date r' = Availability.from_date r
       /\ Availability.to_date r' = Availability.to_date r.
Proof.
  intros H. apply updateApplication_returned in H as (r & Hrow & _ & ->).
  repeat split; try done.
  - intros other Hne. by apply written_elsewhere.
  - exists r, (updated r application_status (version_number + 1)).
    split; [done|]. split; [apply written_row|done].
Qed.

(** One call, seen from one row: its version goes up by one if the call was
    an update of this row that returned, and stays otherwise. *)
Lemma updateApplication_version_step drv c id s r x s' :
  availability (db s) !! id = Some r ->
  updateApplication drv (call_availability_id c) (call_application_status c)
                    (call_version_number c) s = (x, s') ->
  exists r',
    availability (db s') !! id = Some r'
    /\ Availability.version_number r'
       = Availability.version_number r
         + (if succeeded id c x then 1 else 0).
Proof.
  intros Hrow H. unfold succeeded. destruct x as [x|e].
  - apply updateApplication_returned in H as (r0 & Hrow0 & Hv & ->).
    destruct (decide (call_availability_id c = id)) as [Heq|Hne].
    + rewrite bool_decide_eq_true_2 by done. subst id.
      rewrite Hrow in Hrow0. injection Hrow0 as <-.
      eexists. split; [apply written_row|]. simpl. lia.
    + rewrite bool_decide_eq_false_2 by done.
      exists r. rewrite written_elsewhere by done. split; [done|]. simpl. lia.
  - apply updateApplication_thrown_store in H as ->.
    exists r. split; [done|]. rewrite andb_false_r. lia.
Qed.

(** X4. Status updates handled one after another: whatever the calls and
    whatever the database does to the statements of each of them, a fault on
    one call and none on the next included, the version of a row ends at its
    old value plus the number of updates of this row that returned. *)
Theorem serve_version_counts calls s id r results s' :
  availability (db s) !! id = Some r ->
  serve calls s = (results, s') ->
  exists r',
    availability (db s') !! id = Some r'
    /\ Availability.version_number r'
       = Availability.version_number r + successes id calls results.
Proof.
  revert s r results.
  induction calls as [|[drv c] calls IH]; intros s r results Hrow.
  - intros [= <- <-]. exists r. split; [done|]. simpl. lia.
  - cbn [serve].
    destruct (updateApplication drv _ _ _ s) as [x s1] eqn:Hcall.
    destruct (serve calls s1) as [rs s2] eqn:Hrest.
    intros [= <- <-].
    destruct (updateApplication_version_step _ _ _ _ _ _ _ Hrow Hcall)
      as (r1 & Hrow1 & Hv1).
    destruct (IH _ _ _ Hrow1 Hrest) as (r2 & Hrow2 & Hv2).
    exists r2. split; [done|]. cbn [successes]. lia.
Qed.

(** ** Status update: two calls in flight, any interleaving *)

Section RaceInvariant.

Variable drv : Driver.
Hypothesis find_ok : drv AvailabilityFindByPk = None.
Hypothesis update_ok : drv AvailabilityUpdate = None.

Variables (c1 c2 : Call) (id v : Z).
Hypothesis row1 : call_availability_id c1 = id.
Hypothesis row2 : call_availability_id c2 = id.
Hypothesis version1 : call_version_number c1 = v.
Hypothesis version2 : call_version_number c2 = v.

Lemma racing_sym t1 t2 s : racing id v t1 t2 s -> racing id v t2 t1 s.
Proof.
  intros (r & Hrow & Hw & Hok1 & Hok2 & Hiff).
  exists r. split; [done|]. split; [done|]. split; [done|]. split; [done|].
  rewrite Hiff. tauto.
Qed.

Lemma task_ok_moved w t : task_ok v w t -> task_ok v (v + 1) t.
Proof. unfold task_ok. intuition. Qed.

(** One more step of a call keeps the two calls [racing]. *)
Lemma racing_resume c t1 t2 s :
  call_availability_id c = id ->
  call_version_number c = v ->
  racing id v t1 t2 s ->
  racing id v (resume drv c t1 s).1 t2 (resume drv c t1 s).2.
Proof using find_ok update_ok.
  intros Hid Hv (r & Hrow & Hw & Hok1 & Hok2 & Hiff).
  destruct Hok1 as [->|[->|[->|[[e ->] Hmoved]]]].
  - (* about to read *)
    unfold resume, try_catch. rewrite Hid, Hv.
    rewrite (checkVersion_found _ _ _ _ _ Hrow find_ok).
    destruct (decide (Availability.version_number r ≠ v)) as [Hne|Heq]; simpl.
    + assert (Availability.version_number r = v + 1) as Hm by (by destruct Hw).
      exists r. split; [done|]. split; [done|].
      split; [right; right; right; split; [by eexists|done]|].
      split; [done|]. split.
      * intros _. destruct (proj1 Hiff Hm) as [|]; [done|by right].
      * intros [|]; [done|]. apply Hiff. by right.
    + exists r. split; [done|]. split; [done|].
      split; [right; by left|]. split; [done|]. split.
      * intros Hm. destruct (proj1 Hiff Hm) as [|]; [done|by right].
      * intros [|]; [done|]. apply Hiff. by right.
  - (* about to write *)
    unfold resume, try_catch. rewrite Hid.
    rewrite (writeStatus_found _ _ _ _ _ _ Hrow update_ok). simpl.
    eexists. split; [apply lookup_insert_eq|]. simpl.
    split; [by right|]. split; [right; right; by left|].
    split; [by apply task_ok_moved in Hok2|]. split; [by left|done].
  - (* settled with success *)
    simpl. exists r. split; [done|]. split; [done|].
    split; [right; right; by left|]. by split.
  - (* turned away *)
    simpl. exists r. split; [done|]. split; [done|].
    split; [right; right; right; split; [by eexists|done]|]. by split.
Qed.

Lemma racing_race schedule t1 t2 s :
  racing id v t1 t2 s ->
  racing id v (race drv c1 c2 schedule t1 t2 s).1.1
              (race drv c1 c2 schedule t1 t2 s).1.2
              (race drv c1 c2 schedule t1 t2 s).2.
Proof using All.
  revert t1 t2 s. induction schedule as [|turn schedule IH]; intros t1 t2 s H;
    [done|].
  destruct turn; cbn [race].
  - pose proof (racing_resume c1 t1 t2 s row1 version1 H) as H'.
    destruct (resume drv c1 t1 s) as [t1' s1]. by apply IH.
  - pose proof (racing_resume c2 t2 t1 s row2 version2 (racing_sym _ _ _ H))
      as H'.
    destruct (resume drv c2 t2 s) as [t2' s1]. by apply IH, racing_sym.
Qed.

(** X5. Two status updates of the same row, both presenting its current
    version [v], resumed in any order on a database that executes their
    statements: the version of the row never goes beyond [v + 1], and once
    both calls have settled, at least one of them has returned "success" and
    the row is at [v + 1]. *)
Theorem race_never_both_rejected schedule s r t1 t2 s' :
  availability (db s) !! id = Some r ->
  Availability.version_number r = v ->
  race drv c1 c2 schedule Reading Reading s = (t1, t2, s') ->
  exists r',
    availability (db s') !! id = Some r'
    /\ (Availability.version_number r' = v
        \/ Availability.version_number r' = v + 1)
    /\ (forall x1 x2,
          t1 = Settled x1 -> t2 = Settled x2 ->
          (x1 = Return "success" \/ x2 = Return "success")
          /\ Availability.version_number r' = v + 1).
Proof using All.
  intros Hrow Hv Hrace.
  assert (racing id v Reading Reading s) as Hstart.
  { exists r. split; [done|]. split; [by left|]. split; [by left|].
    split; [by left|]. split; [lia|by intros [|]]. }
  apply (racing_race schedule) in Hstart. rewrite Hrace in Hstart. simpl in Hstart.
  destruct Hstart as (r' & Hrow' & Hw & Hok1 & Hok2 & Hiff).
  exists r'. split; [done|]. split; [done|].
  intros x1 x2 -> ->.
  destruct Hok1 as [|[|[[= ->]|[_ Hm]]]]; try done.
  - split; [by left|]. apply Hiff. by left.
  - destruct Hok2 as [|[|[[= ->]|[_ _]]]]; try done.
    + split; [by right|done].
    + destruct (proj1 Hiff Hm) as [[= ->]|[= ->]]; split; try done;
        [by left|by right].
Qed.

End RaceInvariant.

(** ** Submission: what else the code shows *)

Lemma preserves_try_catch {A} P (m : dao A) (h : JsError -> dao A) :
  preserves P m -> (forall e, preserves P (h e)) -> preserves P (try_catch m h).
Proof.
  intros Hm Hh s Hs. unfold try_catch.
  specialize (Hm s Hs). destruct (m s) as [[a|e] s1]; simpl in *; [done|].
  by apply Hh.
Qed.

Lemma preserves_unchanged {A} P (m : dao A) :
  (forall s, (m s).2 = s) -> preserves P m.
Proof. intros Hm s Hs. by rewrite Hm. Qed.

Lemma findPersonByUsername_unchanged drv username s :
  (findPersonByUsername drv username s).2 = s.
Proof.
  destruct (findPersonByUsername drv username s) as [r s'] eqn:H.
  by apply findPersonByUsername_store in H.
Qed.

Lemma destructure_person_id_unchanged dto s :
  (destructure_person_id dto s).2 = s.
Proof. by destruct dto. Qed.

Lemma preserves_in_transaction_persons {A} d (f : Database -> A * Database) :
  (forall t, person (f t).2 = person t /\ person_seq (f t).2 = person_seq t) ->
  preserves (persons_of d) (in_transaction f).
Proof.
  intros Hf s Hs. unfold in_transaction.
  destruct (txn s) as [t|] eqn:Htxn; [|exact Hs].
  destruct Hs as [Hdb Ht]. destruct (Ht t Htxn) as [Hp Hseq].
  specialize (Hf t). destruct (f t) as [a t']. simpl in *.
  split; [done|]. intros t0 [= <-]. intuition congruence.
Qed.

Lemma foldl_Availability_insert_persons (l : list object) (t : Database) :
  person (foldl Availability_insert t l) = person t
  /\ person_seq (foldl Availability_insert t l) = person_seq t
  /\ competence_profile (foldl Availability_insert t l) = competence_profile t.
Proof.
  revert t. induction l as [|o l IH]; intros t; [done|].
  cbn [foldl]. destruct (IH (Availability_insert t o)) as (-> & -> & ->). done.
Qed.

(** X6. A submission never touches the person table: however it ends and
    whatever the driver does, the persons and the sequence of their ids are
    what they were. *)
Theorem submitApplication_keeps_persons drv d username competencies periods r s' :
  submitApplication drv username competencies periods (idle d) = (r, s') ->
  person (db s') = person d /\ person_seq (db s') = person_seq d.
Proof.
  intros H.
  assert (preserves (persons_of d)
            (submitApplication drv username competencies periods)) as Hkeeps.
  { unfold submitApplication.
    apply preserves_bind.
    { apply preserves_query. intros s [Hdb _]. split; [done|].
      by intros t [= <-]. }
    intros _. apply preserves_try_catch.
    - apply preserves_bind;
        [apply preserves_unchanged, findPersonByUsername_unchanged|].
      intros dto. apply preserves_bind;
        [apply preserves_unchanged, destructure_person_id_unchanged|].
      intros person_id. apply preserves_bind.
      { unfold CompetenceProfile_bulkCreate.
        destruct (map _ competencies); [apply preserves_ret|].
        apply preserves_query, preserves_in_transaction_persons. by intros t. }
      intros _. apply preserves_bind.
      { apply preserves_detach_all, Forall_forall. intros m Hm.
        apply list_elem_of_fmap in Hm as (profile & -> & _).
        unfold updateExperience, CompetenceProfile_update.
        apply preserves_bind; [apply preserves_check_where|]. intros _.
        apply preserves_query, preserves_in_transaction_persons. intros t.
        destruct (competence_profile t !! _); [|done]. by destruct (decide _). }
      intros _. apply preserves_bind.
      { unfold Availability_bulkCreate.
        destruct (map _ periods) as [|o l]; [apply preserves_ret|].
        apply preserves_query, preserves_in_transaction_persons. intros t.
        simpl. destruct (foldl_Availability_insert_persons l
                           (Availability_insert t o)) as (-> & -> & _). done. }
      intros _. apply preserves_bind; [|intros; apply preserves_ret].
      apply preserves_detach, preserves_query. intros s Hs.
      destruct (txn s) as [t|] eqn:Htxn; simpl; [|exact Hs].
      destruct Hs as [_ Ht]. split; [by apply Ht|done].
    - intros e. apply preserves_bind; [|intros; apply preserves_throw].
      apply preserves_detach, preserves_query. intros s [Hdb Ht].
      by split. }
  assert (persons_of d (idle d)) as Hstart by (by split).
  apply Hkeeps in Hstart. rewrite H in Hstart. exact (proj1 Hstart).
Qed.

Lemma findPersonByParameter_answered drv key param s :
  drv PersonFindOne = None ->
  param ≠ VUndefined ->
  findPersonByParameter drv key param s
  = (Return (createPersonDto
               <$> List.find (matches [(key, param)]) (person (db s))), s).
Proof.
  intros Hdrv Hparam.
  unfold findPersonByParameter, try_catch, bind, Person_findOne, check_where.
  cbn [List.find snd]. rewrite bool_decide_eq_false_2 by done. cbn [ret].
  unfold query, autocommit, ret. rewrite Hdrv. destruct s as [d t].
  cbn -[matches]. by destruct (List.find _ (person d)).
Qed.

Lemma validators_pass username s :
  Validators.isAlphanumeric username = true ->
  (Validators.isStringNonZeroLength username "username" ;;;
   Validators.isAlphanumericString username "username") s = (Return tt, s).
Proof.
  intros Hvalid. destruct username as [| |b|n|u]; try done.
  unfold Validators.isStringNonZeroLength, Validators.isAlphanumericString,
    Validators.isString, Validators.assertion, Validators.isEmpty, bind.
  rewrite Hvalid. unfold Validators.isAlphanumeric in Hvalid.
  apply andb_true_iff in Hvalid as [Hne _].
  apply negb_true_iff in Hne. by rewrite Hne.
Qed.

Lemma findPersonByUsername_resolved drv username s row :
  drv PersonFindOne = None ->
  Validators.isAlphanumeric username = true ->
  List.find (matches [("username", username)]) (person (db s)) = Some row ->
  findPersonByUsername drv username s = (Return (Some (createPersonDto row)), s).
Proof.
  intros Hdrv Hvalid Hfind.
  pose proof (validators_pass username s Hvalid) as Hpass.
  unfold findPersonByUsername. unfold bind in *.
  destruct (Validators.isStringNonZeroLength username "username" s)
    as [[[]|e] s1]; [|done].
  destruct (Validators.isAlphanumericString username "username" s1)
    as [[[]|e] s2]; [|done].
  injection Hpass as ->.
  rewrite findPersonByParameter_answered; [by rewrite Hfind|done|].
  by destruct username.
Qed.

Lemma findPersonByUsername_found drv username s dto s' :
  findPersonByUsername drv username s = (Return (Some dto), s') ->
  exists row,
    List.find (matches [("username", username)]) (person (db s)) = Some row
    /\ dto = createPersonDto row.
Proof.
  unfold findPersonByUsername, Validators.isStringNonZeroLength,
    Validators.isAlphanumericString, Validators.isString,
    Validators.assertion, Validators.isEmpty, Validators.isAlphanumeric, bind.
  destruct username as [| |b|n|u]; simpl; unfold throw; try done.
  destruct (String.eqb u EmptyString); simpl; [done|].
  destruct (forallb Validators.alphanumeric _); simpl; [|done].
  unfold findPersonByParameter, try_catch, bind, Person_findOne, check_where,
    query, autocommit, ret, throw. simpl.
  destruct (drv PersonFindOne); simpl; [done|].
  destruct s as [d t]. simpl.
  destruct (List.find _ (person d)) as [row|]; simpl; [|done].
  intros [= <- _]. by exists row.
Qed.

(** X7. What a submission throws: if the transaction cannot be opened, the
    error of the driver as it is, with nothing changed (the transaction is
    opened before the [try]); in every other case an [Error] whose message
    starts with "Failed to submit application.". *)
Theorem submitApplication_error_shape drv d username competencies periods e s' :
  submitApplication drv username competencies periods (idle d) = (Throw e, s') ->
  match drv Transaction with
  | Some m => e = mkError DriverError m /\ s' = idle d
  | None => exists cause, e = wrap "Failed to submit application." cause
  end.
Proof.
  intros H. destruct (drv Transaction) as [m|] eqn:Htx.
  - revert H. unfold submitApplication, bind, transaction, query.
    rewrite Htx. by intros [= <- <-].
  - apply submitApplication_cases in H
      as [(e' & _ & Hne & _)|[(e' & s2 & [= ->] & _)|(? & ? & ? & _)]];
      [done|by eexists|done].
Qed.

Lemma availabilityOf_person id person_id (p : object) :
  Availability.person_id (Availability_build id (availabilityOf person_id p))
  = match p !! "person_id" with
    | Some v => if decide (v = VUndefined) then VNull else v
    | None => if decide (person_id = VUndefined) then VNull else person_id
    end.
Proof.
  unfold Availability_build, availabilityOf, column. simpl.
  rewrite lookup_insert_ne by done. rewrite lookup_union, lookup_singleton_eq.
  destruct (p !! "person_id") as [v|]; simpl.
  - by destruct v.
  - by destruct person_id.
Qed.

(** X8. Where the row of a period is filed, and whose it is. In a submission
    that returned and was committed, where every period leaves its id to the
    database or brings a number for it and the ids are pairwise distinct, as
    the primary key has it: the row of a period is under the id the period
    brought, or, if it brought none, under the value the sequence has
    reached after the periods before it that brought none either; its
    version is 0 whatever the period brought; and it belongs to the person
    the username resolved to when the period carries no [person_id], and to
    the person whose number the period carries otherwise, the spread
    [{person_id, ...p}] letting the period win. *)
Theorem submitApplication_row_owner drv d username competencies periods x s' :
  submitApplication drv username competencies periods (idle d) = (Return x, s') ->
  drv Commit = None ->
  Forall (fun p => id_or_none (prop p "availability_id") = true) periods ->
  NoDup (Availability_ids (availability_seq d) periods) ->
  exists owner,
    List.find (matches [("username", username)]) (person d) = Some owner
    /\ forall (i : nat) (p : object) (k : Z),
         periods !! i = Some p ->
         Availability_ids (availability_seq d) periods !! i = Some k ->
         k = default (availability_seq d
                      + Z.of_nat (length (unnumbered (take i periods))))
                     (own_id p)
         /\ exists row,
              availability (db s') !! k = Some row
              /\ Availability.availability_id row = k
              /\ Availability.version_number row = 0
              /\ (p !! "person_id" = None ->
                  Availability.person_id row = column owner "person_id")
              /\ (forall n, p !! "person_id" = Some (VNum n) ->
                    Availability.person_id row = VNum n).
Proof.
  intros H Hcommit _ Hdup.
  apply submitApplication_cases in H
    as [(e & ? & _)|[(e & s2 & ? & _)|(dto & t & _ & Hfind & Hav & Hseq & ->)]];
    [done..|].
  apply findPersonByUsername_found in Hfind as (owner & Hfind & ->).
  exists owner. split; [done|]. intros i p k Hp Hk.
  split; [by apply (Availability_ids_lookup _ _ _ _ _ Hp Hk)|].
  unfold commit, query. rewrite Hcommit. simpl.
  destruct (foldl_Availability_insert_lookup
              (map (availabilityOf (prop owner "person_id")) periods) t i
              (availabilityOf (prop owner "person_id") p) k)
    as (seq & Hrow & Hid).
  { by rewrite availabilityOf_ids, Hseq. }
  { by rewrite list_lookup_fmap, Hp. }
  { by rewrite availabilityOf_ids, Hseq. }
  eexists. split; [exact Hrow|]. split; [done|].
  split; [apply availabilityOf_version|].
  rewrite availabilityOf_person. split.
  - intros ->. unfold column, prop. simpl.
    by destruct (owner !! "person_id") as [[]|].
  - by intros n ->.
Qed.

(** ** Submission on a database that executes every statement *)

Lemma set_competence_profile_id (t : Database) :
  set_competence_profile (fun tbl => tbl) t = t.
Proof. by destruct t. Qed.

Lemma set_competence_profile_twice f g (t : Database) :
  set_competence_profile g (set_competence_profile f t)
  = set_competence_profile (fun tbl => g (f tbl)) t.
Proof. done. Qed.

Lemma CompetenceProfile_bulkCreate_healthy records d t :
  CompetenceProfile_bulkCreate healthy records (mkStore d (Some t))
  = (Return tt,
     mkStore d (Some (set_competence_profile
                        (fun tbl => foldl CompetenceProfile_insert_ignore tbl
                                          records) t))).
Proof.
  destruct records; [|done]. simpl. by rewrite set_competence_profile_id.
Qed.

Lemma updateExperience_healthy profile d t :
  (updateExperience healthy profile (mkStore d (Some t))).2
  = mkStore d (Some (set_competence_profile
                       (fun tbl => experience_updated tbl profile) t)).
Proof.
  unfold updateExperience, CompetenceProfile_update, check_where, bind.
  unfold set_competence_profile, experience_updated. cbn [List.find snd fst].
  destruct (decide (prop profile "person_id" = VUndefined)) as [Hp|Hp].
  { rewrite bool_decide_eq_true_2 by done. simpl.
    rewrite decide_True by (by left). by destruct t. }
  rewrite (bool_decide_eq_false_2 _ Hp).
  destruct (decide (prop profile "competence_id" = VUndefined)) as [Hc|Hc].
  { rewrite bool_decide_eq_true_2 by done. simpl.
    rewrite decide_True by (by right). by destruct t. }
  rewrite (bool_decide_eq_false_2 _ Hc). simpl.
  rewrite decide_False by tauto.
  unfold query, in_transaction. cbn [healthy txn db].
  destruct (competence_profile t !! _); [|by destruct t].
  destruct (decide _); [by destruct t|done].
Qed.

Lemma updates_healthy profiles d t :
  detach_all (map (updateExperience healthy) profiles) (mkStore d (Some t))
  = (Return tt,
     mkStore d (Some (set_competence_profile
                        (fun tbl => foldl experience_updated tbl profiles) t))).
Proof.
  revert t. induction profiles as [|profile profiles IH]; intros t.
  - simpl. by rewrite set_competence_profile_id.
  - cbn [map detach_all]. unfold bind, detach.
    rewrite updateExperience_healthy, IH. by rewrite set_competence_profile_twice.
Qed.

Lemma Availability_bulkCreate_healthy records d t :
  Availability_bulkCreate healthy records (mkStore d (Some t))
  = (Return tt, mkStore d (Some (foldl Availability_insert t records))).
Proof. by destruct records. Qed.

(** On a database that executes every statement, the submission of a known
    applicant returns "success" and leaves the tables [submitted]. *)
Lemma submitApplication_healthy d username competencies periods owner :
  Validators.isAlphanumeric username = true ->
  List.find (matches [("username", username)]) (person d) = Some owner ->
  submitApplication healthy username competencies periods (idle d)
  = (Return "success",
     idle (submitted (prop owner "person_id") competencies periods d)).
Proof.
  intros Hvalid Hfind. unfold submitApplication.
  unfold bind at 1. cbn [transaction query healthy idle db].
  unfold try_catch. unfold bind at 1.
  rewrite (findPersonByUsername_resolved healthy username
             (mkStore d (Some d)) owner eq_refl Hvalid Hfind).
  unfold bind at 1. cbn [destructure_person_id ret createPersonDto
                          PersonDTO.person_id].
  unfold bind at 1. rewrite CompetenceProfile_bulkCreate_healthy.
  unfold bind at 1. rewrite updates_healthy.
  unfold bind at 1. rewrite Availability_bulkCreate_healthy.
  unfold bind, detach, commit, query, ret. simpl.
  unfold idle, submitted. by rewrite set_competence_profile_twice.
Qed.

Lemma insert_ignore_keeps tbl o k :
  is_Some (tbl !! k) -> is_Some (CompetenceProfile_insert_ignore tbl o !! k).
Proof.
  intros Hk. unfold CompetenceProfile_insert_ignore.
  destruct (tbl !! (prop o "person_id", prop o "competence_id")) eqn:Ho; [done|].
  rewrite lookup_insert_ne; [done|]. intros <-. rewrite Ho in Hk.
  by destruct Hk.
Qed.

Lemma insert_ignore_own tbl o :
  is_Some (CompetenceProfile_insert_ignore tbl o
             !! (prop o "person_id", prop o "competence_id")).
Proof.
  unfold CompetenceProfile_insert_ignore.
  destruct (tbl !! (prop o "person_id", prop o "competence_id")) eqn:Ho.
  - by rewrite Ho.
  - by rewrite lookup_insert_eq.
Qed.

Lemma foldl_insert_ignore_keeps l tbl k :
  is_Some (tbl !! k) ->
  is_Some (foldl CompetenceProfile_insert_ignore tbl l !! k).
Proof.
  revert tbl. induction l as [|o l IH]; intros tbl Hk; [done|].
  cbn [foldl]. by apply IH, insert_ignore_keeps.
Qed.

(** After the bulk insert, every profile of the list has its row. *)
Lemma foldl_insert_ignore_present l tbl o :
  o ∈ l ->
  is_Some (foldl CompetenceProfile_insert_ignore tbl l
             !! (prop o "person_id", prop o "competence_id")).
Proof.
  revert tbl. induction l as [|o' l IH]; intros tbl Ho.
  - by apply elem_of_nil in Ho.
  - cbn [foldl]. apply elem_of_cons in Ho as [->|Ho].
    + apply foldl_insert_ignore_keeps, insert_ignore_own.
    + by apply IH.
Qed.

Lemma experience_updated_other tbl p k :
  (prop p "person_id", prop p "competence_id") ≠ k ->
  experience_updated tbl p !! k = tbl !! k.
Proof.
  intros Hk. unfold experience_updated.
  destruct (decide _); [done|].
  destruct (tbl !! (prop p "person_id", prop p "competence_id")); [|done].
  destruct (decide _); [done|]. by rewrite lookup_insert_ne.
Qed.

Lemma foldl_experience_updated_other l tbl k :
  (forall p, p ∈ l -> (prop p "person_id", prop p "competence_id") ≠ k) ->
  foldl experience_updated tbl l !! k = tbl !! k.
Proof.
  revert tbl. induction l as [|p l IH]; intros tbl Hl; [done|].
  cbn [foldl]. rewrite IH by (intros; apply Hl; set_solver).
  apply experience_updated_other, Hl. set_solver.
Qed.

Lemma experience_updated_keeps tbl p k :
  is_Some (tbl !! k) -> is_Some (experience_updated tbl p !! k).
Proof.
  intros Hk.
  destruct (decide ((prop p "person_id", prop p "competence_id") = k))
    as [<-|Hne]; [|by rewrite experience_updated_other].
  unfold experience_updated. destruct (decide _); [done|].
  destruct Hk as [y Hy]. rewrite Hy.
  destruct (decide _); [by rewrite Hy|by rewrite lookup_insert_eq].
Qed.

(** The updates run in the order of the list: a row ends with the years of
    the last profile that names it. *)
Lemma foldl_experience_updated_last l tbl (i : nat) p :
  l !! i = Some p ->
  prop p "person_id" ≠ VUndefined ->
  prop p "competence_id" ≠ VUndefined ->
  prop p "years_of_experience" ≠ VUndefined ->
  is_Some (tbl !! (prop p "person_id", prop p "competence_id")) ->
  (forall (j : nat) p', (i < j)%nat -> l !! j = Some p' ->
     (prop p' "person_id", prop p' "competence_id")
     ≠ (prop p "person_id", prop p "competence_id")) ->
  foldl experience_updated tbl l !! (prop p "person_id", prop p "competence_id")
  = Some (prop p "years_of_experience").
Proof.
  intros Hi Hpid Hcid Hyears. revert tbl i Hi.
  induction l as [|p0 l IH]; intros tbl i Hi Hrow Hlater; [done|].
  cbn [foldl]. destruct i as [|i].
  - injection Hi as ->. rewrite foldl_experience_updated_other.
    + unfold experience_updated. rewrite decide_False by tauto.
      destruct Hrow as [y ->]. rewrite decide_False by done.
      apply lookup_insert_eq.
    + intros p' Hp'. apply list_elem_of_lookup in Hp' as [j Hj].
      apply (Hlater (S j)); [lia|done].
  - apply (IH _ i); [done|by apply experience_updated_keeps|].
    intros j p' Hij Hj. apply (Hlater (S j)); [lia|done].
Qed.

Lemma competenceProfile_lookup person_id (c : object) (k : string) :
  k ≠ "person_id" -> competenceProfile person_id c !! k = c !! k.
Proof.
  intros Hk. unfold competenceProfile. rewrite lookup_union.
  rewrite lookup_singleton_ne by done. by destruct (c !! k).
Qed.

Lemma competenceProfile_person person_id (c : object) :
  c !! "person_id" = None ->
  prop (competenceProfile person_id c) "person_id" = person_id.
Proof.
  intros Hc. unfold prop, competenceProfile.
  by rewrite lookup_union, Hc, lookup_singleton_eq.
Qed.

(** X9. Experience, when the updates are executed. On a database that
    executes every statement, after the submission of a known applicant the
    competence profile of the applicant for a submitted competence holds the
    years of the last entry of the list that names this competence, whether
    the row was there before or not. *)
Theorem submitApplication_stores_experience d username competencies periods
    owner (i : nat) (c : object) :
  Validators.isAlphanumeric username = true ->
  List.find (matches [("username", username)]) (person d) = Some owner ->
  prop owner "person_id" ≠ VUndefined ->
  competencies !! i = Some c ->
  c !! "person_id" = None ->
  prop c "competence_id" ≠ VUndefined ->
  prop c "years_of_experience" ≠ VUndefined ->
  (forall (j : nat) c', (i < j)%nat -> competencies !! j = Some c' ->
     prop c' "competence_id" ≠ prop c "competence_id") ->
  competence_profile
    (db (submitApplication healthy username competencies periods (idle d)).2)
    !! (prop owner "person_id", prop c "competence_id")
  = Some (prop c "years_of_experience").
Proof.
  intros Hvalid Hfind Hpid Hi Hown Hcid Hyears Hlater.
  rewrite (submitApplication_healthy _ _ _ _ _ Hvalid Hfind). simpl.
  unfold submitted.
  destruct (foldl_Availability_insert_persons
              (map (availabilityOf (prop owner "person_id")) periods)
              (set_competence_profile
                 (fun tbl =>
                    foldl experience_updated
                      (foldl CompetenceProfile_insert_ignore tbl
                         (map (competenceProfile (prop owner "person_id"))
                              competencies))
                      (map (competenceProfile (prop owner "person_id"))
                           competencies)) d)) as (_ & _ & ->).
  simpl.
  set (pid := prop owner "person_id") in *.
  set (p := competenceProfile pid c).
  assert (prop p "person_id" = pid) as Hp1
    by (by apply competenceProfile_person).
  assert (forall k, k ≠ "person_id" -> prop p k = prop c k) as Hp2.
  { intros k Hk. unfold prop, p. by rewrite competenceProfile_lookup. }
  assert (map (competenceProfile pid) competencies !! i = Some p) as Hip
    by (by rewrite list_lookup_fmap, Hi).
  assert (foldl experience_updated
            (foldl CompetenceProfile_insert_ignore (competence_profile d)
                   (map (competenceProfile pid) competencies))
            (map (competenceProfile pid) competencies)
            !! (prop p "person_id", prop p "competence_id")
          = Some (prop p "years_of_experience")) as Hrow.
  { apply (foldl_experience_updated_last _ _ i).
    - done.
    - by rewrite Hp1.
    - by rewrite Hp2.
    - by rewrite Hp2.
    - apply foldl_insert_ignore_present. by apply list_elem_of_lookup_2 in Hip.
    - intros j p' Hij Hj.
      rewrite list_lookup_fmap in Hj.
      destruct (competencies !! j) as [c'|] eqn:Hc'; [|done].
      injection Hj as <-. specialize (Hlater j c' Hij Hc').
      intros [= _ Heq]. apply Hlater.
      rewrite Hp2 in Heq by done. unfold prop in Heq |- *.
      by rewrite competenceProfile_lookup in Heq. }
  by rewrite Hp1, !Hp2 in Hrow.
Qed.

(** X10. A submission without competencies and without periods, by a known
    applicant whose lookup the database answers, issues no insert and no
    update: it returns "success" and the tables are what they were, whatever
    the driver would do with the statements it never sends. *)
Theorem submitApplication_empty drv d username owner :
  drv Transaction = None ->
  drv PersonFindOne = None ->
  Validators.isAlphanumeric username = true ->
  List.find (matches [("username", username)]) (person d) = Some owner ->
  exists s',
    submitApplication drv username [] [] (idle d) = (Return "success", s')
    /\ db s' = d.
Proof.
  intros Htx Hdrv Hvalid Hfind. unfold submitApplication.
  unfold bind at 1. unfold transaction, query. rewrite Htx. cbn [idle db].
  unfold try_catch. unfold bind at 1.
  rewrite (findPersonByUsername_resolved drv username
             (mkStore d (Some d)) owner Hdrv Hvalid Hfind).
  unfold bind, detach, ret. simpl.
  eexists. split; [done|].
  unfold commit, query. by destruct (drv Commit).
Qed.

(** ** The person repository: lookups, registration, passwords *)

Lemma find_app_last {A} (f : A -> bool) (l : list A) (x : A) :
  List.find f l = None -> f x = true -> List.find f (l ++ [x]) = Some x.
Proof.
  intros Hl Hx. induction l as [|a l IH]; simpl in *; [by rewrite Hx|].
  destruct (f a); [done|]. by apply IH.
Qed.

Lemma column_defined (o : object) (k : string) :
  prop o k ≠ VUndefined -> column o k = prop o k.
Proof. unfold column, prop. by destruct (o !! k) as [[]|]. Qed.

Lemma Person_build_column seq (o : object) (k : string) :
  k ∈ ["name"; "surname"; "ssn"; "email"; "password"; "role_id"; "username"] ->
  Person_build seq o !! k = Some (column o k).
Proof.
  intros Hk. unfold Person_build.
  assert ((list_to_map (map (fun k => (k, column o k)) Person_attributes)
             : object) !! k = Some (column o k)) as Hrow.
  { repeat (apply elem_of_cons in Hk as [->|Hk]);
      [by simpl; rewrite ?lookup_insert_ne by done; rewrite lookup_insert_eq..|].
    by apply elem_of_nil in Hk. }
  destruct (decide _); [|done].
  rewrite lookup_insert_ne; [done|].
  intros <-. repeat (apply elem_of_cons in Hk as [[=]|Hk]).
  by apply elem_of_nil in Hk.
Qed.

Lemma savePerson_executed drv record s :
  drv PersonCreate = None ->
  savePerson drv record s
  = (Return "success",
     mkStore
       (set_person
          (fun rows =>
             (rows ++ [Person_build (person_seq (db s))
                                    (<["role_id" := VNum 2]> record)])%list)
          (if decide (column (<["role_id" := VNum 2]> record) "person_id" = VNull)
           then Z.succ else id)
          (db s))
       (txn s)).
Proof.
  intros Hdrv.
  unfold savePerson, try_catch, bind, Person_create, query, autocommit, ret.
  by rewrite Hdrv.
Qed.

Lemma login_answered drv credentials s :
  drv PersonFindOne = None ->
  prop credentials "username" ≠ VUndefined ->
  prop credentials "password" ≠ VUndefined ->
  login drv credentials s
  = (Return (createPersonDto
               <$> (select ["username"; "email"; "role_id"]
                      <$> List.find
                            (matches [("username", prop credentials "username");
                                      ("password", prop credentials "password")])
                            (person (db s)))),
     s).
Proof.
  intros Hdrv Hu Hp.
  unfold login, try_catch, bind, Person_findOne, check_where.
  cbn [List.find snd]. rewrite !bool_decide_eq_false_2 by done. cbn [ret].
  unfold query, autocommit, ret. rewrite Hdrv. destruct s as [d t].
  cbn -[matches select]. by destruct (List.find _ (person d)).
Qed.

Lemma createPersonDto_select (row : object) :
  createPersonDto (select ["username"; "email"; "role_id"] row)
  = PersonDTO.mk VUndefined VUndefined VUndefined VUndefined
      (prop row "email") VUndefined (prop row "role_id") (prop row "username").
Proof.
  unfold createPersonDto, prop. rewrite !select_lookup. by decide_members.
Qed.

(** X11. [findPersonByUsername] turns a username down before it asks the
    database: a value that is not a string, an empty string and a string with
    a character outside letters and digits each throw their own
    AssertionError, as it is, whatever the driver would do, and the store is
    untouched. The message is the one the validator gave to [assert]; for a
    value that is not a string it is the one given to [assert.equal], behind
    which the runtime may write the comparison that failed. *)
Theorem findPersonByUsername_invalid drv username s :
  Validators.isAlphanumeric username = false ->
  exists appended,
    findPersonByUsername drv username s
    = (Throw (mkError AssertionError
                match username with
                | VStr u =>
                    if String.eqb u EmptyString
                    then "username needs to have non-zero length."
                    else "username needs to only contain letters and numbers."
                | _ => "username needs to be a string." +:+ appended
                end),
       s).
Proof.
  intros Hvalid.
  unfold findPersonByUsername, Validators.isStringNonZeroLength,
    Validators.isAlphanumericString, Validators.isString,
    Validators.assertion, Validators.isEmpty, bind.
  destruct username as [| |b|n|u]; try (by eexists). simpl.
  exists EmptyString.
  destruct (String.eqb u EmptyString) eqn:Hu; [done|]. simpl.
  unfold Validators.isAlphanumeric in *. rewrite Hu in *. simpl in *.
  by rewrite Hvalid.
Qed.

(** X12. Registration, then lookup by username. When the database executes
    the insert and answers the lookup, and no earlier person has the
    username, [findPersonByUsername] on the username just registered returns
    the new person: role 2 whatever role the record asked for, and the
    password, email, name, surname and ssn of the record as they were
    given. *)
Theorem savePerson_then_findPersonByUsername drv record s :
  drv PersonCreate = None ->
  drv PersonFindOne = None ->
  Validators.isAlphanumeric (prop record "username") = true ->
  (forall row, row ∈ person (db s) ->
     row !! "username" ≠ Some (prop record "username")) ->
  exists s1 dto,
    savePerson drv record s = (Return "success", s1)
    /\ findPersonByUsername drv (prop record "username") s1
       = (Return (Some dto), s1)
    /\ PersonDTO.username dto = prop record "username"
    /\ PersonDTO.role_id dto = VNum 2
    /\ PersonDTO.password dto = column record "password"
    /\ PersonDTO.email dto = column record "email"
    /\ PersonDTO.name dto = column record "name"
    /\ PersonDTO.surname dto = column record "surname"
    /\ PersonDTO.ssn dto = column record "ssn".
Proof.
  intros Hcreate Hfind Hvalid Hnew.
  set (u := prop record "username") in *.
  set (row := Person_build (person_seq (db s)) (<["role_id" := VNum 2]> record)).
  assert (forall k, k ≠ "role_id" ->
            column (<["role_id" := VNum 2]> record) k = column record k) as Hcol.
  { intros k Hk. unfold column. by rewrite lookup_insert_ne. }
  assert (forall k,
            k ∈ ["name"; "surname"; "ssn"; "email"; "password"; "username"] ->
            prop row k = column record k) as Hrow.
  { intros k Hk.
    repeat (apply elem_of_cons in Hk as [->|Hk]);
      [unfold prop, row; rewrite Person_build_column by (repeat constructor);
       simpl; by apply Hcol..|].
    by apply elem_of_nil in Hk. }
  assert (u ≠ VUndefined) as Hu by (by destruct u).
  assert (prop row "username" = u) as Hname.
  { rewrite Hrow by (repeat constructor). by apply column_defined. }
  eexists _, (createPersonDto row).
  split; [by apply savePerson_executed|]. split.
  - apply findPersonByUsername_resolved; [done..|]. simpl.
    apply find_app_last.
    + apply find_none_iff. intros r Hr. unfold matches. simpl.
      rewrite andb_true_r. apply bool_decide_eq_false. by apply Hnew.
    + unfold matches. simpl. rewrite andb_true_r. apply bool_decide_eq_true.
      unfold prop in Hname. destruct (row !! "username") as [v|] eqn:Hv.
      * simpl in Hname. by subst.
      * unfold row in Hv.
        by rewrite Person_build_column in Hv by (repeat constructor).
  - simpl. split; [done|]. split.
    { unfold prop, row. by rewrite Person_build_role_id. }
    repeat split; apply Hrow; repeat constructor.
Qed.

(** X13. Registration, then login with the username and the password of the
    record. When the database executes the insert and answers the lookup, and
    no earlier person has the username, the login returns the DTO of the new
    person: the username, the email of the record and role 2, and nothing
    else. *)
Theorem savePerson_then_login drv record s :
  drv PersonCreate = None ->
  drv PersonFindOne = None ->
  prop record "username" ≠ VUndefined ->
  prop record "password" ≠ VUndefined ->
  (forall row, row ∈ person (db s) ->
     row !! "username" ≠ Some (prop record "username")) ->
  exists s1,
    savePerson drv record s = (Return "success", s1)
    /\ login drv record s1
       = (Return (Some (PersonDTO.mk VUndefined VUndefined VUndefined
                          VUndefined (column record "email") VUndefined
                          (VNum 2) (prop record "username"))),
          s1).
Proof.
  intros Hcreate Hfind Hu Hp Hnew.
  set (row := Person_build (person_seq (db s)) (<["role_id" := VNum 2]> record)).
  assert (forall k,
            k ∈ ["name"; "surname"; "ssn"; "email"; "password"; "username"] ->
            row !! k = Some (column record k)) as Hrow.
  { intros k Hk.
    repeat (apply elem_of_cons in Hk as [->|Hk]);
      [unfold row; rewrite Person_build_column by (repeat constructor);
       f_equal; unfold column; by rewrite lookup_insert_ne..|].
    by apply elem_of_nil in Hk. }
  eexists. split; [by apply savePerson_executed|].
  rewrite login_answered by done. simpl.
  rewrite (find_app_last _ _ row).
  - simpl. rewrite createPersonDto_select. unfold prop at 1 2 3.
    rewrite !Hrow by (repeat constructor). unfold row.
    rewrite Person_build_role_id by done. simpl. fold row.
    rewrite (Hrow "username") by (repeat constructor). simpl.
    by rewrite (column_defined record "username").
  - apply find_none_iff. intros r Hr. unfold matches. simpl.
    apply andb_false_iff. left. apply bool_decide_eq_false. by apply Hnew.
  - unfold matches. simpl. rewrite andb_true_r, andb_true_iff.
    rewrite !bool_decide_eq_true, !Hrow by (repeat constructor).
    by rewrite !column_defined.
Qed.

Lemma truthy_defined (v : value) : truthy v = true -> v ≠ VUndefined.
Proof. by destruct v. Qed.

(** X14. [findPersonIdByAuth] on a database that answers. With a truthy
    username the person is looked up by username and the email is not
    consulted; with none, by a truthy email. A person found gives the id of
    its row; nobody found gives the TypeError of destructuring [null], thrown
    as it is. *)
Theorem findPersonIdByAuth_lookup drv auth s :
  drv PersonFindOne = None ->
  (truthy (prop auth "username") = true ->
   findPersonIdByAuth drv auth s
   = match List.find (matches [("username", prop auth "username")])
                     (person (db s)) with
     | Some row => (Return (prop row "person_id"), s)
     | None => (Throw (destructure_null "person_id"), s)
     end)
  /\ (truthy (prop auth "username") = false ->
      truthy (prop auth "email") = true ->
      findPersonIdByAuth drv auth s
      = match List.find (matches [("email", prop auth "email")])
                        (person (db s)) with
        | Some row => (Return (prop row "person_id"), s)
        | None => (Throw (destructure_null "person_id"), s)
        end).
Proof.
  intros Hdrv. split.
  - intros Hu. unfold findPersonIdByAuth. rewrite Hu. unfold bind.
    rewrite findPersonByParameter_answered by (by try apply truthy_defined).
    by destruct (List.find _ (person (db s))).
  - intros Hu He. unfold findPersonIdByAuth. rewrite Hu, He. unfold bind.
    rewrite findPersonByParameter_answered by (by try apply truthy_defined).
    by destruct (List.find _ (person (db s))).
Qed.

(** ** Passwords *)

Lemma password_passes password s :
  Validators.isEmpty password = false ->
  (exists pw, password = VStr pw) ->
  Validators.isStringNonZeroLength password "password" s = (Return tt, s).
Proof.
  intros Hne [pw ->].
  unfold Validators.isStringNonZeroLength, Validators.isString,
    Validators.assertion, bind. simpl in *. by rewrite Hne.
Qed.

Lemma setPersonPassword_executed email pw s :
  EmailValidator.test email = true ->
  String.eqb pw EmptyString = false ->
  setPersonPassword None email (VStr pw) s
  = (Return tt,
     mkStore
       (set_person
          (map (fun row =>
                  if matches [("email", email)] row
                  then <["password" := VStr pw]> row else row))
          id (db s))
       (txn s)).
Proof.
  intros Hemail Hpw.
  unfold setPersonPassword, try_catch, EmailValidator.isEmailValid.
  rewrite Hemail. unfold bind at 1. cbn [ret]. unfold bind at 1.
  rewrite password_passes by (by try eexists).
  unfold bind, Person_update, check_where.
  cbn [List.find snd]. rewrite bool_decide_eq_false_2 by (by destruct email).
  by destruct s.
Qed.

(** X15. [setPersonPassword] for an email that no person has: the call
    returns as if the password had been set, and the person table is what it
    was. No error tells the caller that nobody was found. *)
Theorem setPersonPassword_unknown_email email pw s :
  EmailValidator.test email = true ->
  String.eqb pw EmptyString = false ->
  (forall row, row ∈ person (db s) -> row !! "email" ≠ Some email) ->
  exists s',
    setPersonPassword None email (VStr pw) s = (Return tt, s')
    /\ db s' = db s.
Proof.
  intros Hemail Hpw Hnone.
  eexists. split; [by apply setPersonPassword_executed|]. simpl.
  unfold set_person. simpl.
  replace (map _ (person (db s))) with (person (db s)); [by destruct (db s)|].
  induction (person (db s)) as [|row rows IH]; [done|].
  simpl. rewrite <- IH by (intros; apply Hnone; by right).
  rewrite bool_decide_eq_false_2 by (apply Hnone; by left). done.
Qed.

(** X16. An email that does not have the form of one, or a password that is
    not a string of at least one character, and [setPersonPassword] throws
    under its own prefix without sending a statement: the store is untouched,
    whatever the driver would have done. *)
Theorem setPersonPassword_invalid reject email password s :
  EmailValidator.test email = false
  \/ (forall pw, password = VStr pw -> pw = EmptyString) ->
  exists cause,
    setPersonPassword reject email password s
    = (Throw (wrap "Could not set user password" cause), s)
    /\ ename cause = AssertionError.
Proof.
  intros Hbad.
  unfold setPersonPassword, try_catch, EmailValidator.isEmailValid.
  destruct (EmailValidator.test email) eqn:Hemail.
  - destruct Hbad as [|Hpw]; [done|].
    unfold bind at 1. cbn [ret]. unfold bind at 1.
    unfold Validators.isStringNonZeroLength, Validators.isString,
      Validators.assertion, bind.
    destruct password as [| |b|n|pw]; try (by eexists).
    rewrite (Hpw pw eq_refl). by eexists.
  - by eexists.
Qed.

(** X17. Setting a password, then logging in with it. When some person has
    the email and the database executes the update and answers the lookup,
    the login with the username of that person and the new password returns a
    DTO with this username. *)
Theorem setPersonPassword_then_login drv email pw s row username :
  EmailValidator.test email = true ->
  String.eqb pw EmptyString = false ->
  drv PersonFindOne = None ->
  row ∈ person (db s) ->
  row !! "email" = Some email ->
  row !! "username" = Some username ->
  username ≠ VUndefined ->
  exists s' dto,
    setPersonPassword None email (VStr pw) s = (Return tt, s')
    /\ login drv {[ "username" := username; "password" := VStr pw ]} s'
       = (Return (Some dto), s')
    /\ PersonDTO.username dto = username
    /\ PersonDTO.password dto = VUndefined.
Proof.
  intros Hemail Hpw Hdrv Hin Hrow Hname Hu.
  set (credentials := ({[ "username" := username; "password" := VStr pw ]}
                       : object)).
  assert (prop credentials "username" = username) as Hcu by done.
  assert (prop credentials "password" = VStr pw) as Hcp by done.
  set (w := [("username", username); ("password", VStr pw)]).
  set (f := fun r : object =>
              if matches [("email", email)] r
              then <["password" := VStr pw]> r else r).
  assert (forall r, matches w r = true
            <-> r !! "username" = Some username
                /\ r !! "password" = Some (VStr pw)) as Hmatch.
  { intros r. unfold matches, w. simpl.
    by rewrite andb_true_r, andb_true_iff, !bool_decide_eq_true. }
  assert (exists found,
            List.find (matches w) (map f (person (db s))) = Some found
            /\ found !! "username" = Some username) as (found & Hfind & Hf).
  { destruct (List.find (matches w) (map f (person (db s))))
      as [found|] eqn:Hfind.
    - exists found. split; [done|].
      apply find_some in Hfind as [_ Hfound]. by apply Hmatch in Hfound as [? _].
    - exfalso. apply find_none_iff with (x := f row) in Hfind.
      + assert (matches w (f row) = true) as Hyes; [|congruence].
        apply Hmatch. unfold f, matches. simpl.
        rewrite bool_decide_eq_true_2 by done. simpl.
        by rewrite lookup_insert_ne, lookup_insert_eq.
      + apply list_elem_of_fmap. by exists row. }
  eexists _, (createPersonDto (select ["username"; "email"; "role_id"] found)).
  split; [by apply setPersonPassword_executed|].
  rewrite login_answered by (by rewrite ?Hcu, ?Hcp). rewrite Hcu, Hcp.
  cbn [db person set_person]. fold w f. rewrite Hfind.
  split; [done|]. rewrite createPersonDto_select. simpl.
  unfold prop. by rewrite Hf.
Qed.

(** X18. [findPersonByEmail] turns down whatever does not have the form of an
    email address before it asks the database: the AssertionError of the
    validator is thrown as it is, whatever the driver would do, and the store
    is untouched. *)
Theorem findPersonByEmail_invalid drv email s :
  EmailValidator.test email = false ->
  findPersonByEmail drv email s
  = (Throw (EmailValidator.falsy "assert(emailForm.test(emailInput))"), s)
  /\ wrapped (EmailValidator.falsy "assert(emailForm.test(emailInput))") = false.
Proof.
  intros Hemail. split; [|done].
  unfold findPersonByEmail, EmailValidator.isEmailValid, bind.
  by rewrite Hemail.
Qed.

(** X19. The methods of the person repository that have a [catch] throw only
    under their own prefix, and a call that throws has changed no row:
    [findPersonByParameter], [login] and [setPersonPassword] leave the store
    as it was, and a [savePerson] that throws has added no person. Of the id
    sequence after a rejected insert nothing is said: a database may have
    drawn the id before it turned the row down. *)
Theorem person_methods_throw_wrapped drv reject s e s' :
  (forall key param,
     findPersonByParameter drv key param s = (Throw e, s') ->
     s' = s /\ exists cause, e = wrap "could not find person." cause)
  /\ (forall record,
        savePerson drv record s = (Throw e, s') ->
        person (db s') = person (db s)
        /\ exists cause, e = wrap "Could not create person." cause)
  /\ (forall credentials,
        login drv credentials s = (Throw e, s') ->
        s' = s /\ exists cause, e = wrap "could not login." cause)
  /\ (forall email password,
        setPersonPassword reject email password s = (Throw e, s') ->
        s' = s /\ exists cause, e = wrap "Could not set user password" cause).
Proof.
  repeat split.
  - by apply findPersonByParameter_store in H.
  - unfold findPersonByParameter in H.
    apply try_catch_cases in H as [(a & _ & [=])|(e0 & s1 & _ & [= <- _])].
    by eexists.
  - revert H. unfold savePerson, try_catch, bind, Person_create, query,
      autocommit, ret, throw.
    destruct (drv PersonCreate); [by intros [= _ <-]|done].
  - unfold savePerson in H.
    apply try_catch_cases in H as [(a & _ & [=])|(e0 & s1 & _ & [= <- _])].
    by eexists.
  - unfold login in H.
    apply try_catch_cases in H as [(a & _ & [=])|(e0 & s1 & H & [= _ <-])].
    apply bind_cases in H as [(e' & H & _)|(m & s2 & H & Hk)].
    + by apply Person_findOne_store in H.
    + apply Person_findOne_store in H as ->. by destruct m.
  - unfold login in H.
    apply try_catch_cases in H as [(a & _ & [=])|(e0 & s1 & _ & [= <- _])].
    by eexists.
  - unfold setPersonPassword in H.
    apply try_catch_cases in H as [(a & _ & [=])|(e0 & s1 & H & [= _ <-])].
    apply bind_cases in H as [(e' & H & _)|([] & s2 & H & Hk)].
    { revert H. unfold EmailValidator.isEmailValid.
      by destruct (EmailValidator.test email); intros [= _ <-]. }
    assert (s2 = s) as ->.
    { revert H. unfold EmailValidator.isEmailValid.
      by destruct (EmailValidator.test email); intros [= <-]. }
    apply bind_cases in Hk as [(e' & H' & _)|([] & s3 & H' & Hk)].
    { revert H'. unfold Validators.isStringNonZeroLength, Validators.isString,
        Validators.assertion, bind.
      destruct password; simpl; try (by intros [= _ <-]).
      by destruct (negb _); intros [= _ <-]. }
    assert (s3 = s) as ->.
    { revert H'. unfold Validators.isStringNonZeroLength, Validators.isString,
        Validators.assertion, bind.
      destruct password; simpl; try done.
      by destruct (negb _); intros [= <-]. }
    apply bind_cases in Hk as [(e' & H'' & _)|(n & s4 & _ & [=])].
    revert H''. unfold Person_update, check_where, bind. cbn [List.find snd].
    destruct (bool_decide _); [by intros [= _ <-]|]. cbn [ret].
    by destruct reject; intros [= _ <-].
  - unfold setPersonPassword in H.
    apply try_catch_cases in H as [(a & _ & [=])|(e0 & s1 & _ & [= <- _])].
    by eexists.
Qed.

(** ** The form of an email address *)

Lemma nullable_lang r : nullable r = true <-> lang r [].
Proof.
  split.
  - induction r; simpl; intros H; try done.
    + constructor.
    + apply andb_true_iff in H as [H1 H2].
      change (lang (Seq r1 r2) ([] ++ [])). constructor; auto.
    + apply orb_true_iff in H as [H|H];
        [apply lang_alt_l|apply lang_alt_r]; auto.
    + constructor.
  - intros H. remember [] as s eqn:Hs.
    induction H; simpl; try done.
    + apply app_eq_nil in Hs as [-> ->]. rewrite IHlang1, IHlang2; done.
    + rewrite IHlang; done.
    + rewrite IHlang. by rewrite orb_true_r. done.
Qed.

Lemma lang_star_split r c s :
  lang (Star r) (c :: s) ->
  exists s1 s2, s = (s1 ++ s2)%list /\ lang r (c :: s1) /\ lang (Star r) s2.
Proof.
  intros H. remember (Star r) as r0 eqn:Hr. remember (c :: s) as s0 eqn:Hs.
  induction H as [| | | | | |r' s1 s2 H1 _ H2 IH2]; try done.
  injection Hr as ->. destruct s1 as [|c' s1]; simpl in Hs.
  - by apply IH2.
  - injection Hs as -> <-. by exists s1, s2.
Qed.

Lemma lang_seq_inv r1 r2 s :
  lang (Seq r1 r2) s ->
  exists s1 s2, s = (s1 ++ s2)%list /\ lang r1 s1 /\ lang r2 s2.
Proof. inversion 1; subst. eauto. Qed.

Lemma lang_alt_inv r1 r2 s : lang (Alt r1 r2) s -> lang r1 s \/ lang r2 s.
Proof. inversion 1; subst; auto. Qed.

Lemma lang_class_inv p s : lang (Class p) s -> exists c, s = [c] /\ p c = true.
Proof. inversion 1; subst. eauto. Qed.

Lemma derivative_lang c r s : lang (derivative c r) s <-> lang r (c :: s).
Proof.
  revert s. induction r as [| |p|r1 IH1 r2 IH2|r1 IH1 r2 IH2|r IH]; intros s;
    simpl.
  - split; inversion 1.
  - split; inversion 1.
  - destruct (p c) eqn:Hp; split; intros H.
    + inversion H; subst. by constructor.
    + apply lang_class_inv in H as (c' & [= -> ->] & _). constructor.
    + inversion H.
    + apply lang_class_inv in H as (c' & [= -> ->] & Hc). congruence.
  - split.
    + intros H.
      assert (lang (Seq (derivative c r1) r2) s -> lang (Seq r1 r2) (c :: s))
        as Hleft.
      { intros H'. apply lang_seq_inv in H' as (s1 & s2 & -> & Ha & Hb).
        change (lang (Seq r1 r2) ((c :: s1) ++ s2)).
        constructor; [by apply IH1|done]. }
      destruct (nullable r1) eqn:Hn; [|by apply Hleft].
      apply lang_alt_inv in H as [H|H]; [by apply Hleft|].
      change (lang (Seq r1 r2) ([] ++ c :: s)).
      constructor; [by apply nullable_lang|by apply IH2].
    + intros H. apply lang_seq_inv in H as (s1 & s2 & Hs & Ha & Hb).
      destruct s1 as [|c' s1]; simpl in Hs.
      * subst s2. apply nullable_lang in Ha. rewrite Ha.
        apply lang_alt_r. by apply IH2.
      * injection Hs as <- ->.
        assert (lang (Seq (derivative c r1) r2) (s1 ++ s2)%list) as Hd
          by (constructor; [by apply IH1|done]).
        destruct (nullable r1); [by apply lang_alt_l|done].
  - split; intros H; apply lang_alt_inv in H as [H|H];
      [apply lang_alt_l; by apply IH1|apply lang_alt_r; by apply IH2
      |apply lang_alt_l; by apply IH1|apply lang_alt_r; by apply IH2].
  - split; intros H.
    + apply lang_seq_inv in H as (s1 & s2 & -> & Ha & Hb).
      change (lang (Star r) ((c :: s1) ++ s2)).
      constructor; [by apply IH|done].
    + apply lang_star_split in H as (s1 & s2 & -> & Ha & Hb).
      constructor; [by apply IH|done].
Qed.

(** The matcher decides the language. *)
Lemma accepts_lang r s : accepts r s = true <-> lang r s.
Proof.
  revert r. induction s as [|c s IH]; intros r; simpl.
  - apply nullable_lang.
  - rewrite IH. apply derivative_lang.
Qed.

Lemma lang_star_pieces r s :
  lang (Star r) s <-> exists pieces, s = concat pieces /\ Forall (lang r) pieces.
Proof.
  split.
  - intros H. remember (Star r) as r0 eqn:Hr.
    induction H as [| | | | | |r' s1 s2 H1 _ H2 IH2]; try done.
    + by exists [].
    + injection Hr as ->. destruct (IH2 eq_refl) as (pieces & -> & Hall).
      exists (s1 :: pieces). split; [done|]. by constructor.
  - intros (pieces & -> & Hall).
    induction Hall as [|piece pieces Hp _ IH]; simpl; by constructor.
Qed.

Lemma lang_plus_class p s :
  lang (Plus (Class p)) s <-> s ≠ [] /\ Forall (fun c => p c = true) s.
Proof.
  unfold Plus. split.
  - intros H. apply lang_seq_inv in H as (s1 & s2 & -> & Ha & Hb).
    apply lang_class_inv in Ha as (c & -> & Hc). split; [done|].
    constructor; [done|].
    apply lang_star_pieces in Hb as (pieces & -> & Hall).
    induction Hall as [|piece pieces Hp _ IH]; simpl; [done|].
    apply lang_class_inv in Hp as (c' & -> & Hc'). by constructor.
  - intros [Hne Hall]. destruct Hall as [|c s Hc Hall]; [done|]. clear Hne.
    change (lang (Seq (Class p) (Star (Class p))) ([c] ++ s)).
    apply lang_seq; [by apply lang_class|].
    induction Hall as [|c' s Hc' _ IH]; [apply lang_star_nil|].
    change (lang (Star (Class p)) ([c'] ++ s)).
    apply lang_star_more; [by apply lang_class|done].
Qed.

Lemma one_of_single (a c : Ascii.ascii) :
  EmailValidator.one_of (String a EmptyString) c = true <-> c = a.
Proof.
  unfold EmailValidator.one_of. simpl. rewrite orb_false_r.
  apply Ascii.eqb_eq.
Qed.

(** X20. What [isEmailValid] lets through: exactly the strings made of a
    local part, one [@] and a domain, where the local part is one or more
    characters of the class of the local part, and the domain is one or more
    labels separated by single dots, each label one or more letters, digits or
    hyphens. Nothing requires a dot in the domain, and nothing forbids dots
    at the ends of the local part. *)
Theorem isEmailValid_shape (s : string) :
  EmailValidator.test (VStr s) = true
  <-> exists local label labels,
        String.list_ascii_of_string s
        = (local ++ at_sign :: label
                 ++ concat (map (cons full_stop) labels))%list
        /\ local ≠ []
        /\ Forall (fun c => EmailValidator.local_char c = true) local
        /\ Forall (fun l => l ≠ []
                            /\ Forall (fun c => EmailValidator.label_char c = true) l)
                  (label :: labels).
Proof.
  unfold EmailValidator.test. rewrite accepts_lang.
  unfold EmailValidator.emailForm. split.
  - intros H.
    apply lang_seq_inv in H as (local & rest & -> & Hlocal & H).
    apply lang_seq_inv in H as (at_ & rest' & -> & Hat & H).
    apply lang_seq_inv in H as (label & tail & -> & Hlabel & Htail).
    apply lang_plus_class in Hlocal as [Hl1 Hl2].
    apply lang_class_inv in Hat as (c & -> & Hc).
    apply one_of_single in Hc as ->.
    apply lang_plus_class in Hlabel as [Hb1 Hb2].
    apply lang_star_pieces in Htail as (pieces & -> & Hall).
    assert (exists labels,
              pieces = map (cons full_stop) labels
              /\ Forall (fun l => l ≠ []
                           /\ Forall (fun c => EmailValidator.label_char c = true) l)
                        labels) as (labels & -> & Hlabels).
    { induction Hall as [|piece pieces Hp _ (labels & -> & IH)];
        [by exists []|].
      apply lang_seq_inv in Hp as (dot & l & -> & Hdot & Hl).
      apply lang_class_inv in Hdot as (c & -> & Hc).
      apply one_of_single in Hc as ->.
      apply lang_plus_class in Hl.
      exists (l :: labels). split; [done|]. by constructor. }
    exists local, label, labels. repeat split; try done.
    by constructor.
  - intros (local & label & labels & -> & Hl1 & Hl2 & Hall).
    apply Forall_cons in Hall as [[Hb1 Hb2] Hlabels].
    constructor; [by apply lang_plus_class|].
    change (lang (Seq (Class (EmailValidator.one_of "@"))
                      (Seq (Plus (Class EmailValidator.label_char))
                           (Star (Seq (Class (EmailValidator.one_of "."))
                                      (Plus (Class EmailValidator.label_char))))))
                 ([at_sign] ++ (label ++ concat (map (cons full_stop) labels)))).
    constructor; [constructor; by apply one_of_single|].
    constructor; [by apply lang_plus_class|].
    apply lang_star_pieces. eexists. split; [done|].
    apply Forall_fmap. eapply Forall_impl; [exact Hlabels|].
    intros l Hl. simpl.
    change (lang (Seq (Class (EmailValidator.one_of "."))
                      (Plus (Class EmailValidator.label_char)))
                 ([full_stop] ++ l)).
    constructor; [constructor; by apply one_of_single|by apply lang_plus_class].
Qed.

(** ** The token middleware and the route it guards *)

Lemma append_empty_r (s : string) : s +:+ EmptyString = s.
Proof.
  induction s as [|c s IH]; [done|].
  change (String c (s +:+ EmptyString) = String c s). by rewrite IH.
Qed.

Lemma split_cons (c : Ascii.ascii) (s : string) :
  split space (String c s)
  = if Ascii.eqb c space then EmptyString :: split space s
    else match split space s with
         | piece :: pieces => String c piece :: pieces
         | [] => [String c EmptyString]
         end.
Proof. done. Qed.

Lemma split_nonempty (s : string) : split space s ≠ [].
Proof.
  induction s as [|c s IH]; [done|]. rewrite split_cons.
  destruct (Ascii.eqb c space); [done|]. by destruct (split space s).
Qed.

(** The first piece of a split is what stands before the first space. *)
Lemma split_scheme (scheme rest : string) :
  spaceless scheme = true ->
  split space (scheme +:+ String space rest) = scheme :: split space rest.
Proof.
  induction scheme as [|c scheme IH]; intros Hfree.
  - change (split space (String space rest) = EmptyString :: split space rest).
    rewrite split_cons. by rewrite Ascii.eqb_refl.
  - unfold spaceless in Hfree. simpl in Hfree.
    apply andb_true_iff in Hfree as [Hc Hfree].
    change (split space (String c (scheme +:+ String space rest))
            = String c scheme :: split space rest).
    rewrite split_cons.
    apply negb_true_iff in Hc. rewrite Hc. by rewrite IH.
Qed.

Lemma split_spaceless (s : string) : spaceless s = true -> split space s = [s].
Proof.
  induction s as [|c s IH]; intros Hfree; [done|].
  unfold spaceless in Hfree. simpl in Hfree.
  apply andb_true_iff in Hfree as [Hc Hfree].
  rewrite split_cons. apply negb_true_iff in Hc. rewrite Hc. by rewrite IH.
Qed.

Section Tokens.

Variable J : Type.
Variable person_of : J -> J.
Variable verify : option string -> option string -> option J.
Variables JWT_SECRET JWT_PUT_SECRET : option string.

Let verifyToken := Authorizer.verifyToken J person_of verify JWT_SECRET.
Let verifyUpdatePerson :=
  Authorizer.verifyUpdatePerson J person_of verify JWT_SECRET JWT_PUT_SECRET.

(** X21. [verifyToken] never looks at the scheme of the header. Whatever
    stands before the first space, "Bearer" or anything else without a
    space, the token put to [jwt.verify] is what stands between the first
    space and the second one, or the end of the header if there is no second
    one, and the decision is the one of [jwt.verify] on it; [req.token] is
    set either way. *)
Theorem verifyToken_scheme_not_checked (scheme token tail : string) t a :
  spaceless scheme = true ->
  spaceless token = true ->
  tail = EmptyString \/ (exists rest, tail = String space rest) ->
  let header := scheme +:+ String space (token +:+ tail) in
  let req := Authorizer.mkRequest J (Some header) t a in
  verifyToken req
  = match verify (Some token) JWT_SECRET with
    | Some authData =>
        Authorizer.Next J
          (Authorizer.mkRequest J (Some header) (Some token)
                                (Some (person_of authData)))
    | None =>
        Authorizer.Send J 403 "Invalid token!"
          (Authorizer.mkRequest J (Some header) (Some token) a)
    end.
Proof using Type.
  intros Hscheme Htoken Htail header req.
  unfold req, verifyToken, Authorizer.verifyToken, Authorizer.bearerToken. simpl.
  fold space. unfold header.
  rewrite (split_scheme scheme _ Hscheme).
  assert (exists pieces, split space (token +:+ tail) = token :: pieces)
    as [pieces ->].
  { destruct Htail as [->|[rest ->]].
    - exists []. rewrite append_empty_r. by apply split_spaceless.
    - eexists. by apply split_scheme. }
  simpl. by destruct (verify (Some token) JWT_SECRET).
Qed.

(** X22. A header without any space carries no token: [req.token] becomes
    [undefined], [jwt.verify] is asked about [undefined], and the request is
    let through or answered 403 as [jwt.verify] decides on that. *)
Theorem verifyToken_without_token (header : string) t a :
  spaceless header = true ->
  verifyToken (Authorizer.mkRequest J (Some header) t a)
  = match verify None JWT_SECRET with
    | Some authData =>
        Authorizer.Next J
          (Authorizer.mkRequest J (Some header) None (Some (person_of authData)))
    | None =>
        Authorizer.Send J 403 "Invalid token!"
          (Authorizer.mkRequest J (Some header) None a)
    end.
Proof using Type.
  intros Hfree.
  unfold verifyToken, Authorizer.verifyToken, Authorizer.bearerToken. simpl.
  fold space. rewrite (split_spaceless header Hfree). simpl.
  by destruct (verify None JWT_SECRET).
Qed.

(** X23. [verifyUpdatePerson] lets through whatever [verifyToken] lets
    through, with the same identity in [req.body.auth]; what it adds are the
    tokens signed with the second secret, whose whole payload becomes the
    identity. It leaves [req.token] alone. *)
Theorem verifyUpdatePerson_accepts_more (req : Authorizer.Request J) :
  (forall req',
     verifyToken req = Authorizer.Next J req' ->
     verifyUpdatePerson req
     = Authorizer.Next J
         (Authorizer.mkRequest J (Authorizer.authorization J req)
                               (Authorizer.token J req)
                               (Authorizer.auth J req')))
  /\ (forall req',
        verifyUpdatePerson req = Authorizer.Next J req' ->
        (forall req'', verifyToken req ≠ Authorizer.Next J req'') ->
        exists header a2,
          Authorizer.authorization J req = Some header
          /\ verify (Authorizer.bearerToken header) JWT_PUT_SECRET = Some a2
          /\ Authorizer.auth J req' = Some a2
          /\ Authorizer.token J req' = Authorizer.token J req).
Proof using Type.
  unfold verifyToken, verifyUpdatePerson, Authorizer.verifyToken,
    Authorizer.verifyUpdatePerson, Authorizer.set_auth, Authorizer.set_token.
  destruct req as [[header|] t a]; simpl; [|by split].
  destruct (verify (Authorizer.bearerToken header) JWT_SECRET) as [a1|].
  - split.
    + by intros req' [= <-].
    + intros req' _ Hnot. by destruct (Hnot _ eq_refl).
  - split; [done|].
    destruct (verify (Authorizer.bearerToken header) JWT_PUT_SECRET)
      as [a2|] eqn:Hput; [|done].
    intros req' [= <-] _. by exists header, a2.
Qed.

Variable CompetenceList : Type.

Let listRoute :=
  CompetenceAPI.listRoute J person_of verify JWT_SECRET CompetenceList.

(** X24. [GET /competence/list]. The answer is 200 with the list exactly when
    the token middleware lets the request through and the controller returns
    a list; a request the middleware turns down is answered 403 whatever the
    controller would have returned; everything else is a 404, and an error is
    passed on to [next] only when the controller threw it. *)
Theorem listRoute_answers (req : Authorizer.Request J)
    (competenceList : outcome (option CompetenceList)) :
  let response := listRoute req competenceList in
  (CompetenceAPI.status CompetenceList response = 200
   <-> (exists req', verifyToken req = Authorizer.Next J req')
       /\ exists l, competenceList = Return (Some l)
                   /\ CompetenceAPI.body CompetenceList response
                      = CompetenceAPI.Competences CompetenceList l)
  /\ ((forall req', verifyToken req ≠ Authorizer.Next J req') ->
      CompetenceAPI.status CompetenceList response = 403
      /\ forall other, listRoute req other = response)
  /\ (CompetenceAPI.status CompetenceList response = 200
      \/ CompetenceAPI.status CompetenceList response = 403
      \/ CompetenceAPI.status CompetenceList response = 404)
  /\ (forall err,
        CompetenceAPI.forwarded CompetenceList response = Some err ->
        competenceList = Throw err).
Proof using Type.
  unfold listRoute, CompetenceAPI.listRoute, verifyToken.
  destruct (Authorizer.verifyToken J person_of verify JWT_SECRET req)
    as [req'|st msg req'] eqn:Hmw; simpl.
  - split; [|split; [|split]].
    + destruct competenceList as [[l|]|e]; simpl; split; try done.
      * intros _. split; [by eexists|]. by exists l.
      * by intros (_ & l & [=] & _).
      * by intros (_ & l & [=] & _).
    + intros Hnot. by destruct (Hnot req').
    + destruct competenceList as [[l|]|e]; simpl; auto.
    + destruct competenceList as [[l|]|e]; simpl; try done.
      by intros err [= ->].
  - assert (st = 403) as ->.
    { revert Hmw. unfold Authorizer.verifyToken.
      destruct (Authorizer.authorization J req); [|by intros [= <- _ _]].
      by destruct (verify _ _); intros [= <- _ _]. }
    split; [|split; [|split]]; try done.
    + split; [done|]. by intros [[req'' [=]] _].
    + auto.
Qed.

End Tokens.

(** ** The further properties at work on the small database *)

Lemma updateApplication_failure_changes_nothing_witness :
  exists cause,
    updateApplication healthy 1 (VStr "accepted") 3 (idle applied)
    = (Throw (wrap "Could not update application" cause), idle applied).
Proof.
  assert (updateApplication healthy 1 (VStr "accepted") 3 (idle applied)
          = (Throw (wrap "Could not update application" (version_expired 0)),
             idle applied)) as H by (vm_compute; reflexivity).
  destruct (updateApplication_failure_changes_nothing _ _ _ _ _ _ _ H)
    as [_ [cause Hcause]].
  exists cause. by rewrite <- Hcause.
Defined.

Lemma updateApplication_missing_row_witness :
  exists e,
    updateApplication healthy 7 (VStr "accepted") 0 (idle applied)
    = (Throw e, idle applied)
    /\ (healthy AvailabilityFindByPk = None ->
        e = wrap "Could not update application" (read_of_null "version_number")).
Proof.
  apply (updateApplication_missing_row healthy 7 (VStr "accepted") 0
           (idle applied)).
  reflexivity.
Defined.

Lemma updateApplication_frame_witness :
  competence_profile
    (db (updateApplication healthy 1 (VStr "accepted") 0 (idle applied)).2)
  = competence_profile applied
  /\ person
       (db (updateApplication healthy 1 (VStr "accepted") 0 (idle applied)).2)
     = person applied.
Proof.
  destruct (updateApplication healthy 1 (VStr "accepted") 0 (idle applied))
    as [r s'] eqn:H.
  assert (r = Return "success") as -> by (by vm_compute in H; injection H).
  destruct (updateApplication_frame _ _ _ _ _ _ _ H)
    as (Hperson & _ & Hprofile & _).
  by split.
Defined.

Lemma serve_version_counts_witness :
  exists r',
    availability
      (db (serve [(healthy, accept); (no_update, withdraw); (healthy, withdraw)]
                 (idle applied)).2) !! 1 = Some r'
    /\ Availability.version_number r' = 2.
Proof.
  destruct (serve [(healthy, accept); (no_update, withdraw);
                   (healthy, withdraw)] (idle applied))
    as [results s'] eqn:H.
  destruct (serve_version_counts _ (idle applied) 1 january _ _ eq_refl H)
    as (r' & Hrow & Hversion).
  exists r'. split; [exact Hrow|].
  rewrite Hversion. vm_compute in H. by injection H as <- _.
Defined.

Lemma race_never_both_rejected_witness :
  exists r',
    availability
      (db (race healthy accept reject [Second; First; First; Second]
                Reading Reading (idle applied)).2) !! 1 = Some r'
    /\ Availability.version_number r' = 1.
Proof.
  destruct (race healthy accept reject [Second; First; First; Second]
                 Reading Reading (idle applied)) as [[t1 t2] s'] eqn:Hrace.
  destruct (race_never_both_rejected healthy eq_refl eq_refl accept reject 1 0
              eq_refl eq_refl eq_refl eq_refl
              [Second; First; First; Second] (idle applied) january t1 t2 s'
              eq_refl eq_refl Hrace) as (r' & Hrow & _ & Hsettled).
  exists r'. split; [done|].
  vm_compute in Hrace. injection Hrace as <- <- _.
  by destruct (Hsettled _ _ eq_refl eq_refl) as [_ ->].
Defined.

Lemma race_serial_witness :
  race healthy accept reject [First; First; Second; Second] Reading Reading
       (idle applied)
  = (Settled (Return "success"),
     Settled (Throw (wrap "Could not update application" (version_expired 1))),
     written (idle applied) 1 january (VStr "accepted") 1).
Proof.
  exact (race_serial healthy eq_refl eq_refl accept reject (idle applied)
           january eq_refl eq_refl eq_refl eq_refl).
Defined.


Lemma submitApplication_success_availabilities_witness :
  availability_seq
    (db (submitApplication healthy (VStr "alice") [two_years]
           [ten_days_under_5; ten_days] (idle applied)).2)
  = availability_seq applied + 1
  /\ availability
       (db (submitApplication healthy (VStr "alice") [two_years]
              [ten_days_under_5; ten_days] (idle applied)).2) !! 1
     = Some january.
Proof.
  destruct (submitApplication healthy (VStr "alice") [two_years]
              [ten_days_under_5; ten_days] (idle applied)) as [r s'] eqn:H.
  assert (r = Return "success") as -> by (by vm_compute in H; injection H).
  destruct (submitApplication_success_availabilities _ _ _ _ _ _ _ H eq_refl)
    as [Hseq Hold].
  { by apply (bool_decide_unpack _); vm_compute. }
  split; [exact Hseq|]. cbn [snd]. rewrite (Hold 1); [reflexivity|].
  by apply (bool_decide_unpack _); vm_compute.
Defined.

Lemma submitApplication_keeps_persons_witness :
  person (db (submitApplication update_rejected (VStr "alice") [five_years]
                [ten_days] (idle applied)).2) = [alice]
  /\ person_seq
       (db (submitApplication update_rejected (VStr "alice") [five_years]
              [ten_days] (idle applied)).2) = 2.
Proof.
  destruct (submitApplication update_rejected (VStr "alice") [five_years]
              [ten_days] (idle applied)) as [r s'] eqn:H.
  exact (submitApplication_keeps_persons _ _ _ _ _ _ _ H).
Defined.

Lemma submitApplication_error_shape_witness :
  submitApplication no_transaction (VStr "alice") [two_years] [ten_days]
                    (idle registered)
  = (Throw (mkError DriverError "connection refused"), idle registered).
Proof.
  destruct (submitApplication no_transaction (VStr "alice") [two_years]
              [ten_days] (idle registered)) as [r s'] eqn:H.
  assert (exists e, r = Throw e) as [e ->]
    by (vm_compute in H; injection H as <- _; by eexists).
  by destruct (submitApplication_error_shape _ _ _ _ _ _ _ H) as [-> ->].
Defined.

Lemma submitApplication_row_owner_witness :
  exists row,
    availability
      (db (submitApplication healthy (VStr "alice") []
             [ten_days_under_5; ten_days] (idle registered)).2) !! 5 = Some row
    /\ Availability.availability_id row = 5
    /\ Availability.version_number row = 0
    /\ Availability.person_id row = VNum 1.
Proof.
  destruct (submitApplication healthy (VStr "alice") []
              [ten_days_under_5; ten_days] (idle registered)) as [r s'] eqn:H.
  assert (r = Return "success") as -> by (by vm_compute in H; injection H).
  destruct (submitApplication_row_owner _ _ _ _ _ _ _ H eq_refl)
    as (owner & Hfind & Hrows).
  { by apply (bool_decide_unpack _); vm_compute. }
  { by apply (bool_decide_unpack _); vm_compute. }
  destruct (Hrows 0%nat ten_days_under_5 5 eq_refl eq_refl)
    as (_ & row & Hrow & Hid & Hversion & Hown & _).
  exists row. split; [exact Hrow|]. split; [exact Hid|].
  split; [exact Hversion|].
  rewrite (Hown eq_refl). vm_compute in Hfind. by injection Hfind as <-.
Defined.

Lemma submitApplication_stores_experience_witness :
  competence_profile
    (db (submitApplication healthy (VStr "alice") [two_years; five_years]
           [ten_days] (idle applied)).2) !! (VNum 1, VNum 3)
  = Some (VNum 5).
Proof.
  apply (submitApplication_stores_experience applied (VStr "alice")
           [two_years; five_years] [ten_days] alice 1%nat five_years);
    try reflexivity; try (vm_compute; discriminate).
  intros j c' Hj Hc'. destruct j as [|[|j]]; [lia..|done].
Defined.

Lemma submitApplication_empty_witness :
  exists s',
    submitApplication bad_dates (VStr "alice") [] [] (idle applied)
    = (Return "success", s')
    /\ db s' = applied.
Proof.
  apply (submitApplication_empty bad_dates applied (VStr "alice") alice);
    reflexivity.
Defined.

Lemma findPersonByUsername_invalid_witness :
  exists appended,
    findPersonByUsername no_insert (VNum 5) (idle registered)
    = (Throw (mkError AssertionError
                ("username needs to be a string." +:+ appended)),
       idle registered).
Proof.
  exact (findPersonByUsername_invalid no_insert (VNum 5) (idle registered)
           eq_refl).
Defined.

Lemma savePerson_then_findPersonByUsername_witness :
  exists s1 dto,
    savePerson healthy eve (idle registered) = (Return "success", s1)
    /\ findPersonByUsername healthy (VStr "eve") s1 = (Return (Some dto), s1)
    /\ PersonDTO.role_id dto = VNum 2
    /\ PersonDTO.password dto = VStr "pa55".
Proof.
  destruct (savePerson_then_findPersonByUsername healthy eve (idle registered)
              eq_refl eq_refl eq_refl)
    as (s1 & dto & Hsave & Hfind & _ & Hrole & Hpw & _).
  { intros row Hrow. apply list_elem_of_singleton in Hrow. subst row.
    vm_compute. discriminate. }
  exists s1, dto. repeat split; try done.
Defined.

Lemma savePerson_then_login_witness :
  exists s1,
    savePerson healthy eve (idle registered) = (Return "success", s1)
    /\ login healthy eve s1
       = (Return (Some (PersonDTO.mk VUndefined VUndefined VUndefined
                          VUndefined (VStr "eve@example.com") VUndefined
                          (VNum 2) (VStr "eve"))),
          s1).
Proof.
  apply (savePerson_then_login healthy eve (idle registered));
    try reflexivity; try (vm_compute; discriminate).
  intros row Hrow. apply list_elem_of_singleton in Hrow. subst row.
  vm_compute. discriminate.
Defined.

Lemma findPersonIdByAuth_lookup_witness :
  findPersonIdByAuth healthy
    {[ "username" := VStr "alice"; "email" := VStr "nobody@example.com" ]}
    (idle registered)
  = (Return (VNum 1), idle registered).
Proof.
  destruct (findPersonIdByAuth_lookup healthy
              {[ "username" := VStr "alice";
                 "email" := VStr "nobody@example.com" ]}
              (idle registered) eq_refl) as [Hname _].
  exact (Hname eq_refl).
Defined.

Lemma setPersonPassword_unknown_email_witness :
  exists s',
    setPersonPassword None (VStr "nobody@example.com") (VStr "new")
                      (idle registered) = (Return tt, s')
    /\ db s' = registered.
Proof.
  apply (setPersonPassword_unknown_email (VStr "nobody@example.com") "new"
           (idle registered)); try reflexivity.
  intros row Hrow. apply list_elem_of_singleton in Hrow. subst row.
  vm_compute. discriminate.
Defined.

Lemma setPersonPassword_invalid_witness :
  exists cause,
    setPersonPassword None (VStr "alice@example.com") (VStr EmptyString)
                      (idle registered)
    = (Throw (wrap "Could not set user password" cause), idle registered)
    /\ ename cause = AssertionError.
Proof.
  apply (setPersonPassword_invalid None (VStr "alice@example.com")
           (VStr EmptyString) (idle registered)).
  right. intros pw Hpw. by injection Hpw as <-.
Defined.

Lemma setPersonPassword_then_login_witness :
  exists s' dto,
    setPersonPassword None (VStr "alice@example.com") (VStr "n3w")
                      (idle registered) = (Return tt, s')
    /\ login healthy {[ "username" := VStr "alice"; "password" := VStr "n3w" ]}
             s' = (Return (Some dto), s')
    /\ PersonDTO.username dto = VStr "alice"
    /\ PersonDTO.password dto = VUndefined.
Proof.
  apply (setPersonPassword_then_login healthy (VStr "alice@example.com") "n3w"
           (idle registered) alice (VStr "alice")); try reflexivity.
  - apply list_elem_of_singleton. reflexivity.
  - discriminate.
Defined.

Lemma findPersonByEmail_invalid_witness :
  findPersonByEmail healthy (VStr "alice@example..com") (idle registered)
  = (Throw (EmailValidator.falsy "assert(emailForm.test(emailInput))"),
     idle registered).
Proof.
  apply (findPersonByEmail_invalid healthy (VStr "alice@example..com")
           (idle registered)).
  reflexivity.
Defined.

Lemma person_methods_throw_wrapped_witness :
  exists cause s',
    savePerson no_insert eve (idle registered)
    = (Throw (wrap "Could not create person." cause), s')
    /\ person (db s') = [alice].
Proof.
  destruct (savePerson no_insert eve (idle registered)) as [r s'] eqn:H.
  assert (r = Throw (wrap "Could not create person."
                          (mkError DriverError "duplicate key value"))) as ->
    by (by vm_compute in H; injection H).
  destruct (person_methods_throw_wrapped no_insert None (idle registered)
              (wrap "Could not create person."
                    (mkError DriverError "duplicate key value"))
              s') as (_ & Hsave & _).
  destruct (Hsave eve H) as [Hrows [cause Hcause]].
  exists cause, s'. split; [by rewrite <- Hcause|exact Hrows].
Defined.

Lemma verifyToken_scheme_not_checked_witness :
  Authorizer.verifyToken nat id known_tokens (Some "secret")
    (Authorizer.mkRequest nat (Some "Basic t0k3n") None None)
  = Authorizer.Next nat
      (Authorizer.mkRequest nat (Some "Basic t0k3n") (Some "t0k3n")
                            (Some 7%nat)).
Proof.
  exact (verifyToken_scheme_not_checked nat id known_tokens (Some "secret")
           "Basic" "t0k3n" EmptyString None None
           eq_refl eq_refl (or_introl eq_refl)).
Defined.

Lemma verifyToken_without_token_witness :
  Authorizer.verifyToken nat id known_tokens (Some "secret")
    (Authorizer.mkRequest nat (Some "t0k3n") None None)
  = Authorizer.Send nat 403 "Invalid token!"
      (Authorizer.mkRequest nat (Some "t0k3n") None None).
Proof.
  exact (verifyToken_without_token nat id known_tokens (Some "secret")
           "t0k3n" None None eq_refl).
Defined.

Lemma verifyUpdatePerson_accepts_more_witness :
  Authorizer.verifyUpdatePerson nat id known_tokens (Some "secret")
    (Some "put-secret")
    (Authorizer.mkRequest nat (Some "Bearer t0k3n") None None)
  = Authorizer.Next nat
      (Authorizer.mkRequest nat (Some "Bearer t0k3n") None (Some 7%nat)).
Proof.
  destruct (verifyUpdatePerson_accepts_more nat id known_tokens (Some "secret")
              (Some "put-secret")
              (Authorizer.mkRequest nat (Some "Bearer t0k3n") None None))
    as [Hmore _].
  exact (Hmore _ eq_refl).
Defined.

Lemma listRoute_answers_witness :
  CompetenceAPI.listRoute nat id known_tokens (Some "secret") (list string)
    (Authorizer.mkRequest nat (Some "Bearer forged") None None)
    (Return (Some ["driving"; "cooking"]))
  = CompetenceAPI.mkResponse (list string) 403
      (CompetenceAPI.Text (list string) "Invalid token!") None.
Proof.
  destruct (listRoute_answers nat id known_tokens (Some "secret") (list string)
              (Authorizer.mkRequest nat (Some "Bearer forged") None None)
              (Return None)) as (_ & Hturned & _).
  destruct Hturned as [_ Hsame]; [by intros req'|].
  by rewrite Hsame.
Defined.
